(** * FastGitFileHistory: line aligner and diff presenter

    Shallow embedding of the diff core of the FastGitFileHistory editor
    extension:
    - [buildMergedLines] (src/src/extension.ts, src/unnamed/part_001): the
      LCS table over the two line arrays, the forward reconstruction walk and
      the trailing loops;
    - the webview code that re-splits highlighted markup into lines
      ([splitHighlightedHtmlToLines] / [walk] in src/src/extension.ts and
      [nodeToLines] in src/unnamed/part_001) and [renderCombinedHighlighted]. *)

From Stdlib Require Import String Ascii List Arith ZArith Lia Bool.
Set Warnings "-register-all".
Import ListNotations.
Open Scope string_scope.
Open Scope list_scope.

(* ------------------------------------------------------------------ *)
(** ** Strings: JavaScript [split('\n')] *)

Definition newline : ascii := ascii_of_nat 10.

(** [s.split('\n')]: the pieces between newline characters; [""] yields
    [[""]] and a trailing newline yields a trailing empty piece. *)
Fixpoint split_nl (s : string) : list string :=
  match s with
  | EmptyString => [EmptyString]
  | String c rest =>
      let r := split_nl rest in
      if Ascii.eqb c newline then EmptyString :: r
      else match r with
           | p :: ps => String c p :: ps
           | [] => [String c EmptyString]
           end
  end.

(** [arr.join('\n')] *)
Fixpoint join_nl (l : list string) : string :=
  match l with
  | [] => EmptyString
  | [x] => x
  | x :: xs => x ++ String newline (join_nl xs)
  end.

(** Number of newline characters of a string. *)
Fixpoint count_nl (s : string) : nat :=
  match s with
  | EmptyString => 0
  | String c rest => (if Ascii.eqb c newline then 1 else 0) + count_nl rest
  end.

(* ------------------------------------------------------------------ *)
(** ** Line aligner: [buildMergedLines] *)

Inductive kind := same | del | add.

Record LineRecord := mkRec { type : kind; text : string }.

(** The recurrence of the [dp] table on suffixes: [lcs xs ys] is the value
    the code stores in [dp[i][j]] when [xs = old[i:]] and [ys = new[j:]]. *)
Fixpoint lcs (xs ys : list string) : nat :=
  match xs with
  | [] => 0
  | x :: xs' =>
      (fix go (ys : list string) : nat :=
         match ys with
         | [] => 0
         | y :: ys' =>
             if String.eqb x y then S (lcs xs' ys')
             else Nat.max (lcs xs' ys) (go ys')
         end) ys
  end.

Section Aligner.
Variables oldLines newLines : list string.

(** One row [dp[i][0..n]] of the table, computed from the row below,
    [below = dp[i+1][j..n]], by the inner loop [for j = n-1 downto 0]:
    the tail (columns [j+1..n]) is filled before column [j]. *)
Fixpoint fillRow (x : string) (bs : list string) (below : list nat)
  : list nat :=
  match bs with
  | [] => [0]
  | y :: ys =>
      let rest := fillRow x ys (tl below) in
      (if String.eqb x y then 1 + nth 1 below 0
       else Nat.max (nth 0 below 0) (nth 0 rest 0)) :: rest
  end.

(** The table [dp[i..m][*]], filled by the outer loop
    [for i = m-1 downto 0]; row [m] is all zeros. *)
Fixpoint fillTable (xs : list string) : list (list nat) :=
  match xs with
  | [] => [repeat 0 (S (length newLines))]
  | x :: xs' =>
      let t := fillTable xs' in
      fillRow x newLines (hd [] t) :: t
  end.

Definition dpTable : list (list nat) := fillTable oldLines.

(** [dp[i][j]] *)
Definition dp (i j : nat) : nat := nth j (nth i dpTable []) 0.

Definition m := length oldLines.
Definition n := length newLines.

(** The reconstruction [while (i < m && j < n)] loop followed by the two
    trailing loops.  The loop runs on [fuel]; [None] means the fuel ran out
    before the loop ended. *)
Fixpoint mergeLoop (fuel i j : nat) : option (list LineRecord) :=
  match fuel with
  | 0 => None
  | S f =>
      if Nat.ltb i m && Nat.ltb j n then
        if String.eqb (nth i oldLines "") (nth j newLines "") then
          option_map (cons (mkRec same (nth j newLines "")))
                     (mergeLoop f (S i) (S j))
        else if Nat.leb (dp i (S j)) (dp (S i) j) then
          option_map (cons (mkRec del (nth i oldLines "")))
                     (mergeLoop f (S i) j)
        else
          option_map (cons (mkRec add (nth j newLines "")))
                     (mergeLoop f i (S j))
      else
        Some (map (mkRec del) (skipn i oldLines)
              ++ map (mkRec add) (skipn j newLines))
  end.

(** [computeMergedLines(old, new)]: the aligner on line arrays. *)
Definition mergeLines : option (list LineRecord) :=
  mergeLoop (m + n + 1) 0 0.
End Aligner.

(** [oldText ? oldText.split('\n') : []] *)
Definition splitLines (t : string) : list string :=
  if String.eqb t "" then [] else split_nl t.

Definition buildMergedLines (oldText newText : string)
  : option (list LineRecord) :=
  mergeLines (splitLines oldText) (splitLines newText).

(** Projections of a Mergeview. *)
Definition isOldSide (r : LineRecord) : bool :=
  match type r with same | del => true | add => false end.
Definition isNewSide (r : LineRecord) : bool :=
  match type r with same | add => true | del => false end.
Definition isSame (r : LineRecord) : bool :=
  match type r with same => true | _ => false end.

Definition oldSide (v : list LineRecord) : list string :=
  map text (filter isOldSide v).
Definition newSide (v : list LineRecord) : list string :=
  map text (filter isNewSide v).
Definition nonSameCount (v : list LineRecord) : nat :=
  length (filter (fun r => negb (isSame r)) v).

(** Number of [same] records. *)
Definition sameCount (v : list LineRecord) : nat :=
  length (filter isSame v).

(** The longest common subsequence in the words of the spec: the maximum
    length of a list that is a subsequence of both inputs, computed by
    enumerating the subsequences of the first input. *)
Fixpoint subsequences (l : list string) : list (list string) :=
  match l with
  | [] => [[]]
  | x :: xs => let r := subsequences xs in map (cons x) r ++ r
  end.

Definition LCS_length (a b : list string) : nat :=
  list_max (map (@length string)
    (filter (fun s => if in_dec (list_eq_dec string_dec) s (subsequences b)
                      then true else false)
            (subsequences a))).

(* ------------------------------------------------------------------ *)
(** ** Diff presenter: the highlighted markup tree *)

(** A DOM node of the highlighter's output, as the webview walks it:
    text nodes, elements (tag name, attributes in order, children) and any
    other node type (comments), which the walks skip. *)
Inductive node :=
| TextNode (nodeValue : string)
| ElementNode (tagName : string) (attributes : list (string * string))
              (childNodes : list node)
| OtherNode.

(** The pieces the walks append to a line buffer: the opening tag built
    from the tag name and the (already escaped) attributes, a closing tag,
    and a text piece (the exact string appended).  A line buffer is a list
    of pieces; its string is their concatenation ([line_html]). *)
Inductive tok :=
| TOpen (tag : string) (attrs : list (string * string))
| TClose (tag : string)
| TText (s : string).

Definition dq : string := String (ascii_of_nat 34) "".

Definition tok_html (t : tok) : string :=
  match t with
  | TOpen tag attrs =>
      String.append ("<" ++ tag)%string
        (String.append
           (String.concat ""
              (map (fun '(k, v) => " " ++ k ++ "=" ++ dq ++ v ++ dq)%string attrs))
           ">")
  | TClose tag => ("</" ++ tag ++ ">")%string
  | TText s => s
  end.

Definition line_html (l : list tok) : string :=
  String.concat "" (map tok_html l).

(** [s.replace(/c/g, r)] *)
Fixpoint replace_char (c : ascii) (r : string) (s : string) : string :=
  match s with
  | EmptyString => EmptyString
  | String d s' =>
      String.append (if Ascii.eqb d c then r else String d EmptyString)
                    (replace_char c r s')
  end.

Definition amp : ascii := "&"%char.
Definition lt_c : ascii := "<"%char.
Definition gt_c : ascii := ">"%char.
Definition dq_c : ascii := ascii_of_nat 34.

(** [escapeHtmlTextNode] (extension.ts): one pass over [&], [<], [>]. *)
Fixpoint escapeHtmlTextNode (s : string) : string :=
  match s with
  | EmptyString => EmptyString
  | String c s' =>
      String.append
        (if Ascii.eqb c amp then "&amp;"
         else if Ascii.eqb c lt_c then "&lt;"
         else if Ascii.eqb c gt_c then "&gt;"
         else String c EmptyString)
        (escapeHtmlTextNode s')
  end.

(** [escapeAttr] of extension.ts: quotes first, then [&], [<], [>]. *)
Definition escapeAttr (s : string) : string :=
  replace_char gt_c "&gt;" (replace_char lt_c "&lt;"
    (replace_char amp "&amp;" (replace_char dq_c "&quot;" s))).

(** [escapeAttr] of part_001: [&] first, then quotes, [<], [>]. *)
Definition escapeAttr_001 (s : string) : string :=
  replace_char gt_c "&gt;" (replace_char lt_c "&lt;"
    (replace_char dq_c "&quot;" (replace_char amp "&amp;" s))).

(** [tagName.toLowerCase()] on ASCII tag names. *)
Definition lower_ascii (c : ascii) : ascii :=
  let k := nat_of_ascii c in
  if (Nat.leb 65 k && Nat.leb k 90)%bool then ascii_of_nat (k + 32) else c.

Fixpoint toLowerCase (s : string) : string :=
  match s with
  | EmptyString => EmptyString
  | String c s' => String (lower_ascii c) (toLowerCase s')
  end.

(* ------------------------------------------------------------------ *)
(** ** [splitHighlightedHtmlToLines] (src/src/extension.ts) *)

Fixpoint set_nth {A} (i : nat) (x : A) (l : list A) : list A :=
  match l, i with
  | [], _ => []
  | _ :: l', 0 => x :: l'
  | y :: l', S i' => y :: set_nth i' x l'
  end.

(** [appendToLine(idx, str)]: pad with empty lines up to [idx], then
    append to line [idx]. *)
Definition appendToLine (idx : nat) (t : tok) (lines : list (list tok))
  : list (list tok) :=
  let padded := lines ++ repeat [] (S idx - length lines) in
  set_nth idx (nth idx padded [] ++ [t]) padded.

(** The text-node branch of [walk]: each piece goes to the current line and
    every piece but the last moves the cursor one line down. *)
Fixpoint textParts (parts : list string) (lines : list (list tok))
  (lineIndex : nat) : list (list tok) * nat :=
  match parts with
  | [] => (lines, lineIndex)
  | [p] => (appendToLine lineIndex (TText (escapeHtmlTextNode p)) lines, lineIndex)
  | p :: ps =>
      textParts ps (appendToLine lineIndex (TText (escapeHtmlTextNode p)) lines)
                (S lineIndex)
  end.

(** [for (idx = startIndex; idx <= lineIndex; idx++) appendToLine(idx, close)],
    run from [idx] for [k] lines. *)
Fixpoint closeTags (tag : string) (idx k : nat) (lines : list (list tok))
  : list (list tok) :=
  match k with
  | 0 => lines
  | S k' => closeTags tag (S idx) k' (appendToLine idx (TClose tag) lines)
  end.

(** The children loop of [walk]: the cursor is threaded from child to
    child. *)
Definition walkChildren
  (w : node -> list (list tok) -> nat -> list (list tok) * nat)
  : list node -> list (list tok) -> nat -> list (list tok) * nat :=
  fix go cs lines li :=
    match cs with
    | [] => (lines, li)
    | c :: cs' => let '(l', i') := w c lines li in go cs' l' i'
    end.

Fixpoint walk (nd : node) (lines : list (list tok)) (lineIndex : nat)
  : list (list tok) * nat :=
  match nd with
  | TextNode v => textParts (split_nl v) lines lineIndex
  | ElementNode tn attrs cs =>
      let tag := toLowerCase tn in
      let open_ := TOpen tag (map (fun '(k, v) => (k, escapeAttr v)) attrs) in
      let startIndex := lineIndex in
      let lines1 := appendToLine lineIndex open_ lines in
      let '(lines2, li2) := walkChildren walk cs lines1 lineIndex in
      (closeTags tag startIndex (S (li2 - startIndex)) lines2, li2)
  | OtherNode => (lines, lineIndex)
  end.

(** [if (lines.length > 1 && lines[lines.length-1] === '') lines.pop()] *)
Definition trimLast (lines : list (list tok)) : list (list tok) :=
  if (Nat.ltb 1 (length lines)
      && String.eqb (line_html (last lines [])) "")%bool
  then removelast lines else lines.

(** The line buffers: every top-level node is walked from line [0]
    ([walk(container.childNodes[n], 0)]), the result index is dropped. *)
Definition splitTokLines (container : list node) : list (list tok) :=
  trimLast (fold_left (fun lines nd => fst (walk nd lines 0)) container [[]]).

Definition splitHighlightedHtmlToLines (container : list node) : list string :=
  map line_html (splitTokLines container).

(* ------------------------------------------------------------------ *)
(** ** [nodeToLines] (src/unnamed/part_001) *)

(** [lines[lines.length-1] += childLines[0]; lines.push(...childLines[1..])] *)
Definition appendLines (acc more : list (list tok)) : list (list tok) :=
  match more with
  | [] => acc
  | first :: rest => removelast acc ++ [last acc [] ++ first] ++ rest
  end.

Fixpoint nodeToLines (nd : node) : list (list tok) :=
  match nd with
  | TextNode v => map (fun p => [TText p]) (split_nl v)
  | ElementNode tn attrs cs =>
      let tag := toLowerCase tn in
      let open_ := TOpen tag (map (fun '(k, v) => (k, escapeAttr_001 v)) attrs) in
      let lines := fold_left appendLines (map nodeToLines cs) [[]] in
      map (fun l => open_ :: l ++ [TClose tag]) lines
  | OtherNode => [[]]
  end.

Definition splitTokLines_001 (container : list node) : list (list tok) :=
  trimLast (fold_left (fun acc nd => appendLines acc (nodeToLines nd))
                      container [[]]).

(* ------------------------------------------------------------------ *)
(** ** [renderCombinedHighlighted] *)

Record RenderedLine := mkRendered { className : string; innerHTML : string }.

(** [types[i] || 'same'] *)
Definition typeAt (types : list string) (i : nat) : string :=
  match nth_error types i with
  | Some t => if String.eqb t "" then "same" else t
  | None => "same"
  end.

Definition lineClass (t : string) : string :=
  String.append "line"
    (if String.eqb t "add" then " add"
     else if String.eqb t "del" then " del" else "").

(** [(hlLines[i] && hlLines[i].length) ? hlLines[i] : '&nbsp;'] *)
Definition lineHtml (hlLines : list string) (i : nat) : string :=
  match nth_error hlLines i with
  | Some h => if String.eqb h "" then "&nbsp;" else h
  | None => "&nbsp;"
  end.

(** The wrapper loop over [max(hlLines.length, types.length)] lines. *)
Definition renderLines (hlLines types : list string) : list RenderedLine :=
  map (fun i => mkRendered (lineClass (typeAt types i)) (lineHtml hlLines i))
      (seq 0 (Nat.max (length hlLines) (length types))).

(** [renderCombinedHighlighted(combinedText, types, lang)]: the highlighter
    ([hljs.highlightElement]) is outside the repository; its output tree is
    the argument [highlighted] (the plain text node of [combinedText] when
    highlighting fails). *)
Definition renderCombinedHighlighted (highlighted : list node)
  (types : list string) : list RenderedLine :=
  renderLines (splitHighlightedHtmlToLines highlighted) types.

Definition renderCombinedHighlighted_001 (highlighted : list node)
  (types : list string) : list RenderedLine :=
  renderLines (map line_html (splitTokLines_001 highlighted)) types.

(** Every element opened in a fragment is closed in it, innermost first. *)
Fixpoint balancedFrom (stk : list string) (l : list tok) : bool :=
  match l with
  | [] => match stk with [] => true | _ => false end
  | TOpen t _ :: l' => balancedFrom (t :: stk) l'
  | TClose t :: l' =>
      match stk with
      | t' :: stk' => String.eqb t t' && balancedFrom stk' l'
      | [] => false
      end
  | TText _ :: l' => balancedFrom stk l'
  end.

Definition balanced (l : list tok) : bool := balancedFrom [] l.

(** The text content of a highlighted tree ([textContent]). *)
Fixpoint textContent (nd : node) : string :=
  match nd with
  | TextNode v => v
  | ElementNode _ _ cs => String.concat "" (map textContent cs)
  | OtherNode => EmptyString
  end.

Definition kindName (k : kind) : string :=
  match k with same => "same" | del => "del" | add => "add" end.

Definition spanXY : list node :=
  [ElementNode "SPAN" [("class", "string")]
     [TextNode (String.append "x" (String newline "y"))]].

(** Text content of a line buffer: its text pieces. *)
Definition line_text (l : list tok) : string :=
  String.concat "" (map (fun t => match t with TText s => s | _ => "" end) l).

Definition restartXY : list node :=
  [TextNode (String.append "a" (String newline "b"));
   ElementNode "SPAN" [] [TextNode "c"]].

(** The row of the table for the old suffix [xs]: [lcs xs (skipn j bs)]
    for [j = 0 .. length bs]. *)
Fixpoint lcsRow (xs bs : list string) : list nat :=
  match bs with
  | [] => [lcs xs []]
  | y :: ys => lcs xs (y :: ys) :: lcsRow xs ys
  end.

(** The table as rows of [lcsRow] for the suffixes of the old lines. *)
Fixpoint tableOf (bs xs : list string) : list (list nat) :=
  match xs with
  | [] => [lcsRow [] bs]
  | x :: xs' => lcsRow (x :: xs') bs :: tableOf bs xs'
  end.

(** [s] is a subsequence of [l]. *)
Inductive subseq : list string -> list string -> Prop :=
| subseq_nil l : subseq [] l
| subseq_take x s l : subseq s l -> subseq (x :: s) (x :: l)
| subseq_skip x s l : subseq s l -> subseq s (x :: l).

Create HintDb lcsdb.
#[local] Hint Constructors subseq : lcsdb.

(* ------------------------------------------------------------------ *)
(** ** Utilities: the [escapeHtml] functions *)

(** [s.replace(/[...]/g, c => map[c])]: every character is replaced by the
    string the callback returns for it. *)
Fixpoint replaceChars (f : ascii -> string) (s : string) : string :=
  match s with
  | EmptyString => EmptyString
  | String c s' => String.append (f c) (replaceChars f s')
  end.

Definition sq_c : ascii := "'"%char.

(** The callback of [escapeHtml] (extension.ts line 27, and of the webview
    copies, extension.ts line 316 and part_001 line 306): [&], [<], [>] and
    the double quote; other characters stay. *)
Definition escapeHtmlChar (c : ascii) : string :=
  if Ascii.eqb c amp then "&amp;"
  else if Ascii.eqb c lt_c then "&lt;"
  else if Ascii.eqb c gt_c then "&gt;"
  else if Ascii.eqb c dq_c then "&quot;"
  else String c EmptyString.

(** [escapeHtml(input?)]: [if (!input) return '']; an absent argument is
    [None]. *)
Definition escapeHtml (input : option string) : string :=
  match input with
  | None => EmptyString
  | Some s => if String.eqb s "" then EmptyString
              else replaceChars escapeHtmlChar s
  end.

(** The webview's [escapeHtml(s)]: [(s ?? '')] with the same callback. *)
Definition escapeHtml_webview (s : option string) : string :=
  replaceChars escapeHtmlChar (match s with Some s => s | None => EmptyString end).

(** The callback of [escapeHtml] in part_001 (line 49): also ['] as
    [&#039;]. *)
Definition escapeHtmlChar_001 (c : ascii) : string :=
  if Ascii.eqb c amp then "&amp;"
  else if Ascii.eqb c lt_c then "&lt;"
  else if Ascii.eqb c gt_c then "&gt;"
  else if Ascii.eqb c dq_c then "&quot;"
  else if Ascii.eqb c sq_c then "&#039;"
  else String c EmptyString.

Definition escapeHtml_001 (s : option string) : string :=
  match s with
  | None => EmptyString
  | Some s => if String.eqb s "" then EmptyString
              else replaceChars escapeHtmlChar_001 s
  end.

(** The callback of [escapeHtml] of the panel classes of extension.ts
    (line 429): also ['] as [&#39;]; [(str ?? '')]. *)
Definition escapeHtmlChar_panel (c : ascii) : string :=
  if Ascii.eqb c amp then "&amp;"
  else if Ascii.eqb c lt_c then "&lt;"
  else if Ascii.eqb c gt_c then "&gt;"
  else if Ascii.eqb c dq_c then "&quot;"
  else if Ascii.eqb c sq_c then "&#39;"
  else String c EmptyString.

Definition escapeHtml_panel (str : option string) : string :=
  replaceChars escapeHtmlChar_panel
    (match str with Some s => s | None => EmptyString end).

(** The browser's decoding of the character references these functions
    write ([&amp;], [&lt;], [&gt;], [&quot;], [&#39;], [&#039;]), as applied
    to a text node or an attribute value. *)
Fixpoint decodeEntities (s : string) : string :=
  match s with
  | EmptyString => EmptyString
  | String c rest =>
      if Ascii.eqb c amp then
        match rest with
        | String "a" (String "m" (String "p" (String ";" r))) =>
            String amp (decodeEntities r)
        | String "l" (String "t" (String ";" r)) => String lt_c (decodeEntities r)
        | String "g" (String "t" (String ";" r)) => String gt_c (decodeEntities r)
        | String "q" (String "u" (String "o" (String "t" (String ";" r)))) =>
            String dq_c (decodeEntities r)
        | String "#" (String "3" (String "9" (String ";" r))) =>
            String sq_c (decodeEntities r)
        | String "#" (String "0" (String "3" (String "9" (String ";" r)))) =>
            String sq_c (decodeEntities r)
        | _ => String c (decodeEntities rest)
        end
      else String c (decodeEntities rest)
  end.

(** [c] occurs in [s]. *)
Fixpoint hasChar (c : ascii) (s : string) : bool :=
  match s with
  | EmptyString => false
  | String d s' => Ascii.eqb d c || hasChar c s'
  end.

(** The escaping functions character by character. *)

(** [escapeHtmlTextNode] is the callback replacement of its three
    characters. *)
Definition escapeTextChar (c : ascii) : string :=
  if Ascii.eqb c amp then "&amp;"
  else if Ascii.eqb c lt_c then "&lt;"
  else if Ascii.eqb c gt_c then "&gt;"
  else String c EmptyString.

(** [escapeAttr] of extension.ts character by character: a double quote
    becomes [&amp;quot;]. *)
Definition escapeAttrChar (c : ascii) : string :=
  if Ascii.eqb c dq_c then "&amp;quot;"
  else if Ascii.eqb c amp then "&amp;"
  else if Ascii.eqb c lt_c then "&lt;"
  else if Ascii.eqb c gt_c then "&gt;"
  else String c EmptyString.

(** The same for part_001's [escapeAttr], [&] first. *)
Definition escapeAttrChar_001 (c : ascii) : string :=
  if Ascii.eqb c amp then "&amp;"
  else if Ascii.eqb c dq_c then "&quot;"
  else if Ascii.eqb c lt_c then "&lt;"
  else if Ascii.eqb c gt_c then "&gt;"
  else String c EmptyString.

(** One character map case at a time: a special character is decided by
    computation, the others are kept. *)
Ltac char_cases :=
  repeat match goal with
         | |- context [Ascii.eqb ?c ?d] =>
             is_var c;
             let E := fresh "E" in
             destruct (Ascii.eqb c d) eqn:E;
             [apply Ascii.eqb_eq in E; subst c; reflexivity|]
         end.

(* ------------------------------------------------------------------ *)
(** ** Git output parsing: [getFileCommits], [getCommitFiles] *)

(** [s.split(sep)] for a one-character separator. *)
Fixpoint split_on (sep : ascii) (s : string) : list string :=
  match s with
  | EmptyString => [EmptyString]
  | String c rest =>
      let r := split_on sep rest in
      if Ascii.eqb c sep then EmptyString :: r
      else match r with
           | p :: ps => String c p :: ps
           | [] => [String c EmptyString]
           end
  end.

(** [arr.join(sep)] *)
Fixpoint join_on (sep : ascii) (l : list string) : string :=
  match l with
  | [] => EmptyString
  | [x] => x
  | x :: xs => String.append x (String sep (join_on sep xs))
  end.

(** [.filter(Boolean)] on strings: the empty string is falsy. *)
Definition nonEmpty (s : string) : bool := negb (String.eqb s "").

Definition bar : ascii := "|"%char.

(** A commit entry: [date] is [undefined] ([None]) when the line has no
    [|]. *)
Record Commit := mkCommit { hash : string; date : option string; message : string }.

(** [const [hash, date, ...rest] = line.split('|');
     return { hash, date, message: rest.join('|') };]
    ([split] never returns an empty array, so the last branch is not
    reached.) *)
Definition parseCommitLine (line : string) : Commit :=
  match split_on bar line with
  | h :: d :: rest => mkCommit h (Some d) (join_on bar rest)
  | [h] => mkCommit h None EmptyString
  | [] => mkCommit EmptyString None EmptyString
  end.

Definition workingEntry : Commit :=
  mkCommit "WORKING" (Some EmptyString) "Uncommitted changes".

(** [getFileCommits]: the standard output of [git log] ([None] when the
    command fails and the [catch] branch runs). *)
Definition getFileCommits (stdout : option string) : list Commit :=
  match stdout with
  | None => [workingEntry]
  | Some out =>
      workingEntry :: map parseCommitLine (filter nonEmpty (split_on newline out))
  end.

(** [getCommitFiles]: the standard output of [git diff-tree] ([None] on
    failure). *)
Definition getCommitFiles (stdout : option string) : list string :=
  match stdout with
  | None => []
  | Some out => filter nonEmpty (split_on newline out)
  end.

(** What [git log --pretty=format:%H|%ad|%s] prints for a list of
    (hash, date, subject): one line per commit, lines separated by a
    newline. *)
Definition gitLogOutput (cs : list (string * string * string)) : string :=
  join_on newline
    (map (fun '(h, d, s) => String.append h (String bar (String.append d (String bar s))))
         cs).

(** What [git diff-tree --name-only] prints for a list of file names: each
    name followed by a newline. *)
Definition gitNameListOutput (names : list string) : string :=
  String.concat "" (map (fun f => String.append f (String newline EmptyString)) names).

(* ------------------------------------------------------------------ *)
(** ** [getFullFileDiffPayload] *)

(** [stdout || ''] / [catch { content = '' }]: a failed read is [None]. *)
Definition contentOf (r : option string) : string :=
  match r with Some s => s | None => EmptyString end.

Record Payload := mkPayload { ptext : string; ptypes : list string }.

(** The payload from the two fetched contents:
    [types = merged.map(m => m.type)],
    [text = merged.map(m => m.text).join('\n')]. *)
Definition getFullFileDiffPayload (oldOut newOut : option string)
  : option Payload :=
  match buildMergedLines (contentOf oldOut) (contentOf newOut) with
  | Some merged =>
      Some (mkPayload (join_nl (map text merged))
                      (map (fun r => kindName (type r)) merged))
  | None => None
  end.

(* ------------------------------------------------------------------ *)
(** ** [findGitRepoRoot] *)

(** A normalized absolute path is the list of its segments below the root
    ([[]] is the root); [path.dirname] drops the last segment and the root
    is its own [dirname]; [fs.existsSync(path.join(dir, '.git'))] is the
    test [hasGit dir]. *)
Definition dirname (p : list string) : list string := removelast p.

(** extension.ts:
    [while (dir && dir !== path.dirname(dir)) { if (exists) return dir;
     dir = path.dirname(dir); } return null;]
    (an absolute path is never the empty string); [fuel] bounds the
    iterations. *)
Fixpoint findRootLoop (hasGit : list string -> bool) (fuel : nat)
  (dir : list string) : option (list string) :=
  match fuel with
  | 0 => None
  | S f =>
      if list_eq_dec string_dec dir (dirname dir) then None
      else if hasGit dir then Some dir
      else findRootLoop hasGit f (dirname dir)
  end.

Definition findGitRepoRoot (hasGit : list string -> bool) (filePath : list string)
  : option (list string) :=
  let dir := dirname filePath in
  findRootLoop hasGit (S (length dir)) dir.

(** part_001:
    [while (dir) { if (exists) return dir; const parent = path.dirname(dir);
     if (parent === dir) break; dir = parent; } return null;] *)
Fixpoint findRootLoop_001 (hasGit : list string -> bool) (fuel : nat)
  (dir : list string) : option (list string) :=
  match fuel with
  | 0 => None
  | S f =>
      if hasGit dir then Some dir
      else if list_eq_dec string_dec (dirname dir) dir then None
      else findRootLoop_001 hasGit f (dirname dir)
  end.

Definition findGitRepoRoot_001 (hasGit : list string -> bool)
  (filePath : list string) : option (list string) :=
  let dir := dirname filePath in
  findRootLoop_001 hasGit (S (length dir)) dir.

(* ------------------------------------------------------------------ *)
(** ** Line texts of [nodeToLines] *)

(** [appendLines] on the texts of the lines: the first new line is glued to
    the last line. *)
Definition appendTexts (acc more : list string) : list string :=
  match more with
  | [] => acc
  | first :: rest => removelast acc ++ [String.append (last acc "") first] ++ rest
  end.

(* ------------------------------------------------------------------ *)
(** ** The git output parsing of the panels (extension.ts) *)

Definition tab : ascii := ascii_of_nat 9.

(** A commit of the file history panel: [date] is [undefined] ([None])
    when the line has no tab. *)
Record PanelCommit := mkPanelCommit {
  phash : string; pdate : option string; pdesc : string;
  prelFile : string; prepoPath : string; pspecial : string }.

(** [const [hash, date, ...descParts] = line.split('\t');
     return { hash, date, desc: descParts.join('\t'), relFile, repoPath,
              special: '' };] *)
Definition panelParseLine (repoPath relFile line : string) : PanelCommit :=
  match split_on tab line with
  | h :: d :: rest => mkPanelCommit h (Some d) (join_on tab rest) relFile repoPath ""
  | [h] => mkPanelCommit h None "" relFile repoPath ""
  | [] => mkPanelCommit "" None "" relFile repoPath ""
  end.

(** [GitFileHistoryPanel.getFileCommits], given the output [log] of
    [git log --pretty=format:%H%x09%ad%x09%s]. *)
Definition panelGetFileCommits (repoPath relFile log : string) : list PanelCommit :=
  map (panelParseLine repoPath relFile) (filter nonEmpty (split_on newline log)).

(** What [git log --pretty=format:%H%x09%ad%x09%s] prints for a list of
    (hash, date, subject). *)
Definition gitLogTabOutput (cs : list (string * string * string)) : string :=
  join_on newline
    (map (fun '(h, d, s) => String.append h (String tab (String.append d (String tab s))))
         cs).

(** [findPreviousCommit], given the output [log] of
    [git log --pretty=format:%H -n 2 commit]. *)
Definition findPreviousCommit (log : string) : option string :=
  let commits := filter nonEmpty (split_on newline log) in
  if Nat.ltb (length commits) 2 then None else Some (nth 1 commits EmptyString).

(** [GitCommitFilesPanel.update]: the entries of
    [git show --pretty=format: --name-status]:
    [const [status, ...fileParts] = line.split('\t');
     return { status, file: fileParts.join('\t') };] *)
Definition parseNameStatusLine (line : string) : string * string :=
  match split_on tab line with
  | st :: fileParts => (st, join_on tab fileParts)
  | [] => (EmptyString, EmptyString)
  end.

Definition parseNameStatus (out : string) : list (string * string) :=
  map parseNameStatusLine (filter nonEmpty (split_on newline out)).

(* ------------------------------------------------------------------ *)
(** ** [getHighlightJsLanguageClass] *)

Definition slash_c : ascii := "/"%char.
Definition dot_c : ascii := "."%char.

(** The loop of Node's POSIX [path.extname], run over the characters of the
    path from the last one down ([rcs] is the reversed list, so the index
    [i] of its head is the length of its tail). [-1] is the not-yet-seen
    sentinel of [startDot] and [end]; the result is
    ([startDot], [startPart], [end], [preDotState]). *)
Fixpoint extLoop (rcs : list ascii) (startDot startPart end_ : Z) (matchedSlash : bool)
  (preDotState : Z) : Z * Z * Z * Z :=
  match rcs with
  | [] => (startDot, startPart, end_, preDotState)
  | c :: rest =>
      let i := Z.of_nat (length rest) in
      if Ascii.eqb c slash_c then
        if negb matchedSlash then (startDot, (i + 1)%Z, end_, preDotState)
        else extLoop rest startDot startPart end_ matchedSlash preDotState
      else
        let matchedSlash' := if Z.eqb end_ (-1) then false else matchedSlash in
        let end' := if Z.eqb end_ (-1) then (i + 1)%Z else end_ in
        if Ascii.eqb c dot_c then
          if Z.eqb startDot (-1) then extLoop rest i startPart end' matchedSlash' preDotState
          else if negb (Z.eqb preDotState 1)
          then extLoop rest startDot startPart end' matchedSlash' 1
          else extLoop rest startDot startPart end' matchedSlash' preDotState
        else if negb (Z.eqb startDot (-1))
        then extLoop rest startDot startPart end' matchedSlash' (-1)
        else extLoop rest startDot startPart end' matchedSlash' preDotState
  end.

(** Node's POSIX [path.extname]: [path.slice(startDot, end)], or [''] when
    there is no dot, the dot opens the last component, or that component is
    [..]. *)
Definition extname (p : string) : string :=
  match extLoop (rev (list_ascii_of_string p)) (-1) 0 (-1) true 0 with
  | (startDot, startPart, end_, preDotState) =>
      if (Z.eqb startDot (-1) || Z.eqb end_ (-1) || Z.eqb preDotState 0 ||
          (Z.eqb preDotState 1 && Z.eqb startDot (end_ - 1) &&
           Z.eqb startDot (startPart + 1)))%bool
      then ""
      else substring (Z.to_nat startDot) (Z.to_nat (end_ - startDot)) p
  end.

(** The extension table of [getHighlightJsLanguageClass]. *)
Definition langTable : list (string * string) :=
  [(".c", "cpp"); (".h", "cpp"); (".cpp", "cpp"); (".hpp", "cpp"); (".cc", "cpp");
   (".hh", "cpp"); (".js", "javascript"); (".ts", "typescript"); (".json", "json");
   (".py", "python"); (".java", "java"); (".cs", "cs"); (".go", "go");
   (".rb", "ruby"); (".rs", "rust"); (".php", "php"); (".html", "xml"); (".css", "css")].

Fixpoint lookupStr (k : string) (l : list (string * string)) : option string :=
  match l with
  | [] => None
  | (k', v) :: l' => if String.eqb k k' then Some v else lookupStr k l'
  end.

(** [map[ext] || '']: a missing key is [undefined] (every key of the table
    starts with a dot, so no key of [Object.prototype] is hit). *)
Definition langClass (ext : string) : string :=
  match lookupStr ext langTable with Some v => v | None => "" end.

Definition getHighlightJsLanguageClass (filePath : string) : string :=
  langClass (toLowerCase (extname filePath)).

Example spanXY_lines :
  splitTokLines spanXY =
  [[TOpen "span" [("class", "string")]; TText "x"; TClose "span"];
   [TText "y"; TClose "span"]].
Proof. reflexivity. Qed.

Example spanXY_lines_001 :
  splitTokLines_001 spanXY =
  [[TOpen "span" [("class", "string")]; TText "x"; TClose "span"];
   [TOpen "span" [("class", "string")]; TText "y"; TClose "span"]].
Proof. reflexivity. Qed.

Example merge_abc :
  mergeLines ["a"; "b"; "c"] ["a"; "x"; "c"] =
  Some [mkRec same "a"; mkRec del "b"; mkRec add "x"; mkRec same "c"].
Proof. reflexivity. Qed.

Example lcs_abc : LCS_length ["a"; "b"; "c"] ["a"; "x"; "c"] = 2.
Proof. reflexivity. Qed.

(* ------------------------------------------------------------------ *)
(** ** The [dp] table computes the LCS recurrence *)

Lemma lcs_nil_r xs : lcs xs [] = 0.
Proof. destruct xs; reflexivity. Qed.

Lemma lcs_cons_cons x xs y ys :
  lcs (x :: xs) (y :: ys) =
  if String.eqb x y then S (lcs xs ys)
  else Nat.max (lcs xs (y :: ys)) (lcs (x :: xs) ys).
Proof. reflexivity. Qed.

Lemma lcsRow_head xs bs : nth 0 (lcsRow xs bs) 0 = lcs xs bs.
Proof. destruct bs; reflexivity. Qed.

Lemma fillRow_lcsRow x xs bs :
  fillRow x bs (lcsRow xs bs) = lcsRow (x :: xs) bs.
Proof.
  induction bs as [|y ys IH]; cbn [fillRow lcsRow tl nth].
  - reflexivity.
  - rewrite IH. f_equal.
    rewrite lcs_cons_cons, lcsRow_head, lcsRow_head.
    destruct (String.eqb x y); reflexivity.
Qed.

Lemma lcsRow_nil bs : lcsRow [] bs = repeat 0 (S (length bs)).
Proof. induction bs; simpl; [reflexivity | now rewrite IHbs]. Qed.

Lemma fillTable_tableOf bs xs : fillTable bs xs = tableOf bs xs.
Proof.
  induction xs as [|x xs IH]; simpl.
  - now rewrite lcsRow_nil.
  - rewrite IH. f_equal.
    replace (hd [] (tableOf bs xs)) with (lcsRow xs bs)
      by (destruct xs; reflexivity).
    apply fillRow_lcsRow.
Qed.

Lemma nth_tableOf bs xs i :
  i <= length xs -> nth i (tableOf bs xs) [] = lcsRow (skipn i xs) bs.
Proof.
  revert i; induction xs as [|x xs IH]; intros [|i] Hi; simpl in *;
    try reflexivity; try lia.
  apply IH; lia.
Qed.

Lemma nth_lcsRow xs bs j :
  j <= length bs -> nth j (lcsRow xs bs) 0 = lcs xs (skipn j bs).
Proof.
  revert j; induction bs as [|y ys IH]; intros [|j] Hj; simpl in *;
    try reflexivity; try lia.
  apply IH; lia.
Qed.

Lemma dp_spec a b i j :
  i <= length a -> j <= length b ->
  dp a b i j = lcs (skipn i a) (skipn j b).
Proof.
  intros Hi Hj. unfold dp, dpTable.
  rewrite fillTable_tableOf, nth_tableOf by exact Hi.
  now apply nth_lcsRow.
Qed.
Example split_ex :
  split_nl (String.append "a" (String newline (String.append "b" (String newline "")))) =
  ["a"; "b"; ""].
Proof. reflexivity. Qed.

(* ------------------------------------------------------------------ *)
(** ** The reconstruction walk *)

Lemma skipn_cons_nth {A} (l : list A) i d :
  i < length l -> skipn i l = nth i l d :: skipn (S i) l.
Proof.
  revert i; induction l as [|x l IH]; intros [|i] Hi; simpl in *; try lia.
  - reflexivity.
  - apply IH; lia.
Qed.

Lemma oldSide_cons r v :
  oldSide (r :: v) = if isOldSide r then text r :: oldSide v else oldSide v.
Proof. unfold oldSide; simpl; destruct (isOldSide r); reflexivity. Qed.

Lemma newSide_cons r v :
  newSide (r :: v) = if isNewSide r then text r :: newSide v else newSide v.
Proof. unfold newSide; simpl; destruct (isNewSide r); reflexivity. Qed.

Lemma oldSide_tail xs ys :
  oldSide (map (mkRec del) xs ++ map (mkRec add) ys) = xs.
Proof.
  induction xs as [|x xs IH]; cbn [map app].
  - induction ys; [reflexivity | exact IHys].
  - rewrite oldSide_cons; simpl; now rewrite IH.
Qed.

Lemma newSide_tail xs ys :
  newSide (map (mkRec del) xs ++ map (mkRec add) ys) = ys.
Proof.
  induction xs as [|x xs IH]; cbn [map app].
  - induction ys as [|y ys IHy]; [reflexivity|].
    cbn [map]. rewrite newSide_cons; simpl; now rewrite IHy.
  - exact IH.
Qed.

Lemma sameCount_cons r v :
  sameCount (r :: v) = (if isSame r then 1 else 0) + sameCount v.
Proof. unfold sameCount; simpl; destruct (isSame r); reflexivity. Qed.

Lemma sameCount_tail xs ys :
  sameCount (map (mkRec del) xs ++ map (mkRec add) ys) = 0.
Proof.
  unfold sameCount; induction xs; simpl; [induction ys|]; auto.
Qed.

(** The invariant of the walk from [(i, j)]: with enough fuel it ends, its
    old side is [old[i:]], its new side is [new[j:]] and its number of
    [same] records is [dp[i][j]]. *)
Lemma mergeLoop_spec a b f i j :
  i <= length a -> j <= length b -> length a - i + (length b - j) < f ->
  exists v, mergeLoop a b f i j = Some v /\
            oldSide v = skipn i a /\ newSide v = skipn j b /\
            sameCount v = lcs (skipn i a) (skipn j b).
Proof.
  revert i j; induction f as [|f IH]; intros i j Hi Hj Hf; [lia|].
  cbn [mergeLoop]. unfold m, n.
  destruct (Nat.ltb i (length a) && Nat.ltb j (length b)) eqn:Hlt.
  - apply andb_true_iff in Hlt as [Hi' Hj'].
    apply Nat.ltb_lt in Hi', Hj'.
    rewrite (skipn_cons_nth a i "") by exact Hi'.
    rewrite (skipn_cons_nth b j "") by exact Hj'.
    rewrite lcs_cons_cons.
    set (x := nth i a ""). set (y := nth j b "").
    destruct (String.eqb x y) eqn:Exy.
    + apply String.eqb_eq in Exy.
      destruct (IH (S i) (S j)) as (v & Hv & Ho & Hn & Hs); try lia.
      rewrite Hv. eexists; split; [reflexivity|].
      rewrite oldSide_cons, newSide_cons, sameCount_cons.
      cbn [isOldSide isNewSide isSame type text Nat.add].
      rewrite Ho, Hn, Hs, Exy. auto.
    + rewrite !dp_spec by lia.
      rewrite (skipn_cons_nth a i "") by exact Hi'.
      rewrite (skipn_cons_nth b j "") by exact Hj'.
      fold x y.
      destruct (Nat.leb (lcs (x :: skipn (S i) a) (skipn (S j) b))
                        (lcs (skipn (S i) a) (y :: skipn (S j) b))) eqn:Hle.
      * apply Nat.leb_le in Hle.
        destruct (IH (S i) j) as (v & Hv & Ho & Hn & Hs); try lia.
        rewrite Hv. eexists; split; [reflexivity|].
        rewrite oldSide_cons, newSide_cons, sameCount_cons.
        cbn [isOldSide isNewSide isSame type text Nat.add].
        rewrite Ho, Hn, Hs.
        rewrite (skipn_cons_nth b j "") by exact Hj'.
        repeat split; try reflexivity; unfold x, y in *; lia.
      * apply Nat.leb_gt in Hle.
        destruct (IH i (S j)) as (v & Hv & Ho & Hn & Hs); try lia.
        rewrite Hv. eexists; split; [reflexivity|].
        rewrite oldSide_cons, newSide_cons, sameCount_cons.
        cbn [isOldSide isNewSide isSame type text Nat.add].
        rewrite Ho, Hn, Hs.
        rewrite (skipn_cons_nth a i "") by exact Hi'.
        repeat split; try reflexivity; unfold x, y in *; lia.
  - eexists; split; [reflexivity|].
    rewrite oldSide_tail, newSide_tail, sameCount_tail.
    repeat split.
    apply andb_false_iff in Hlt as [H|H]; apply Nat.ltb_ge in H.
    + rewrite (skipn_all2 a) by lia. reflexivity.
    + rewrite (skipn_all2 b) by lia. apply eq_sym, lcs_nil_r.
Qed.

(* ------------------------------------------------------------------ *)
(** ** The recurrence is the longest common subsequence *)

Lemma in_subsequences s l : In s (subsequences l) <-> subseq s l.
Proof.
  split.
  - revert s; induction l as [|x l IH]; intros s Hs; simpl in Hs.
    + destruct Hs as [<-|[]]. constructor.
    + apply in_app_or in Hs as [Hs|Hs].
      * apply in_map_iff in Hs as (s' & <- & Hs'). constructor; auto.
      * constructor; auto.
  - induction 1 as [l|x s l _ IH|x s l _ IH]; simpl.
    + induction l as [|x l IH]; simpl; [now left|].
      apply in_or_app; now right.
    + apply in_or_app; left; now apply in_map.
    + apply in_or_app; now right.
Qed.

(** Prepending a line to the new side adds at most one to the LCS. *)
Lemma lcs_cons_r_le a :
  forall y b, lcs a (y :: b) <= S (lcs a b).
Proof.
  induction a as [|x a IH]; intros y b; [simpl; lia|].
  assert (Hmono : forall c, lcs a c <= lcs (x :: a) c).
  { intros [|z c]; [rewrite lcs_nil_r; lia|].
    rewrite lcs_cons_cons. destruct (String.eqb x z) eqn:E; [|lia].
    apply String.eqb_eq in E; subst. apply IH. }
  rewrite lcs_cons_cons. destruct (String.eqb x y).
  - specialize (Hmono b). lia.
  - specialize (IH y b). specialize (Hmono b).
    assert (lcs (x :: a) b <= S (lcs (x :: a) b)) by lia. lia.
Qed.

Lemma lcs_mono_l x a c : lcs a c <= lcs (x :: a) c.
Proof.
  destruct c as [|z c]; [rewrite lcs_nil_r; lia|].
  rewrite lcs_cons_cons. destruct (String.eqb x z) eqn:E; [|lia].
  apply String.eqb_eq in E; subst. apply lcs_cons_r_le.
Qed.

Lemma lcs_comm a b : lcs a b = lcs b a.
Proof.
  revert b; induction a as [|x a IH]; intros b.
  - now rewrite lcs_nil_r.
  - induction b as [|y b IHb]; [reflexivity|].
    rewrite !lcs_cons_cons, String.eqb_sym.
    destruct (String.eqb y x) eqn:E.
    + apply String.eqb_eq in E; subst; now rewrite IH.
    + rewrite IH, IHb. apply Nat.max_comm.
Qed.

Lemma lcs_mono_r y a c : lcs a c <= lcs a (y :: c).
Proof. rewrite (lcs_comm a c), (lcs_comm a (y :: c)). apply lcs_mono_l. Qed.

(** Every common subsequence is at most [lcs] long. *)
Lemma common_subseq_le a b s :
  subseq s a -> subseq s b -> length s <= lcs a b.
Proof.
  intros Ha; revert b; induction Ha as [a|x s a Hs IH|x s a Hs IH];
    intros b Hb; [simpl; lia| |].
  - remember (x :: s) as xs eqn:Exs.
    induction Hb as [b|y s' b Hb' IHb|y s' b Hb' IHb].
    + discriminate.
    + injection Exs as -> ->. rewrite lcs_cons_cons, String.eqb_refl.
      simpl. specialize (IH b Hb'). lia.
    + pose proof (lcs_mono_r y (x :: a) b). specialize (IHb Exs). lia.
  - pose proof (lcs_mono_l x a b). specialize (IH b Hb). lia.
Qed.

(** Some common subsequence is exactly [lcs] long. *)
Lemma common_subseq_exists a b :
  exists s, subseq s a /\ subseq s b /\ length s = lcs a b.
Proof.
  revert b; induction a as [|x a IH]; intros b.
  - exists []; repeat constructor.
  - induction b as [|y b IHb].
    + exists []; repeat constructor.
    + rewrite lcs_cons_cons. destruct (String.eqb x y) eqn:E.
      * apply String.eqb_eq in E; subst.
        destruct (IH b) as (s & H1 & H2 & H3).
        exists (y :: s); repeat split; try constructor; auto. simpl; lia.
      * destruct (IH (y :: b)) as (s1 & H1 & H2 & H3).
        destruct IHb as (s2 & G1 & G2 & G3).
        destruct (Nat.le_ge_cases (lcs a (y :: b)) (lcs (x :: a) b)).
        -- exists s2; repeat split; auto with lcsdb; lia.
        -- exists s1; repeat split; auto with lcsdb; lia.
Qed.

Lemma lcs_LCS_length a b : lcs a b = LCS_length a b.
Proof.
  unfold LCS_length.
  apply Nat.le_antisymm.
  - destruct (common_subseq_exists a b) as (s & H1 & H2 & H3).
    rewrite <- H3.
    assert (Hall := Nat.le_refl (list_max (map (@length string)
      (filter (fun s => if in_dec (list_eq_dec string_dec) s (subsequences b)
                        then true else false) (subsequences a))))).
    apply list_max_le in Hall. rewrite Forall_forall in Hall. apply Hall.
    apply in_map, filter_In; split; [now apply in_subsequences|].
    destruct (in_dec _ s (subsequences b)) as [|N]; [reflexivity|].
    exfalso; apply N, in_subsequences, H2.
  - apply list_max_le. rewrite Forall_forall. intros k Hk.
    apply in_map_iff in Hk as (s & <- & Hs).
    apply filter_In in Hs as [Hs Hb].
    destruct (in_dec _ s (subsequences b)) as [Hb'|]; [|discriminate].
    apply common_subseq_le; now apply in_subsequences.
Qed.

Lemma sides_count v :
  length (oldSide v) + length (newSide v) = nonSameCount v + 2 * sameCount v.
Proof.
  induction v as [|r v IH]; [reflexivity|].
  rewrite oldSide_cons, newSide_cons, sameCount_cons.
  unfold nonSameCount in *; cbn [filter].
  destruct r as [[] t]; cbn [isOldSide isNewSide isSame type negb length] in *;
    lia.
Qed.

Lemma mergeLines_spec a b :
  exists v, mergeLines a b = Some v /\
            oldSide v = a /\ newSide v = b /\ sameCount v = lcs a b.
Proof.
  unfold mergeLines, m, n.
  destruct (mergeLoop_spec a b (length a + length b + 1) 0 0)
    as (v & Hv & Ho & Hn & Hs); try lia.
  exists v; simpl in *; auto.
Qed.

Lemma mergeLines_nil_l new : mergeLines [] new = Some (map (mkRec add) new).
Proof.
  unfold mergeLines, m, n. cbn [length]. rewrite Nat.add_1_r.
  cbn [mergeLoop]. rewrite Nat.ltb_irrefl. reflexivity.
Qed.

Lemma mergeLines_nil_r old : mergeLines old [] = Some (map (mkRec del) old).
Proof.
  unfold mergeLines, m, n. cbn [length]. rewrite Nat.add_0_r, Nat.add_1_r.
  cbn [mergeLoop]. rewrite Nat.ltb_irrefl, andb_false_r.
  cbn [skipn map]. now rewrite app_nil_r.
Qed.

Lemma split_nl_no_newline t : count_nl t = 0 -> split_nl t = [t].
Proof.
  induction t as [|c t IH]; intros H; [reflexivity|].
  cbn [count_nl] in H. cbn [split_nl].
  destruct (Ascii.eqb c newline); [discriminate|].
  rewrite IH by exact H. reflexivity.
Qed.

(* ------------------------------------------------------------------ *)
(** ** Claims about the line aligner *)

(** C1: for all line sequences [old] and [new], the Mergeview returned by
    the aligner is produced, and its [same]/[del] records, in order, give
    back [old] while its [same]/[add] records give back [new]. *)
Theorem mergeLines_reconstructs (old new : list string) :
  exists v, mergeLines old new = Some v /\
            oldSide v = old /\ newSide v = new.
Proof.
  destruct (mergeLines_spec old new) as (v & Hv & Ho & Hn & _).
  exists v; auto.
Qed.

(** C2: at a position where [old[i]] and [new[j]] differ and the scores
    [dp[i+1][j]] and [dp[i][j+1]] tie, the walk emits a delete record for
    [old[i]] and advances [i]; on [old = [a;b;c]], [new = [a;x;c]] the
    Mergeview is [same a; del b; add x; same c], not
    [same a; add x; del b; same c]. *)
Theorem mergeLoop_tie_deletes (old new : list string) (f i j : nat)
  (Hi : i < length old) (Hj : j < length new)
  (Hne : nth i old "" <> nth j new "")
  (Htie : dp old new (S i) j = dp old new i (S j)) :
  mergeLoop old new (S f) i j =
    option_map (cons (mkRec del (nth i old ""))) (mergeLoop old new f (S i) j)
  /\ mergeLines ["a"; "b"; "c"] ["a"; "x"; "c"] =
       Some [mkRec same "a"; mkRec del "b"; mkRec add "x"; mkRec same "c"]
  /\ mergeLines ["a"; "b"; "c"] ["a"; "x"; "c"] <>
       Some [mkRec same "a"; mkRec add "x"; mkRec del "b"; mkRec same "c"].
Proof.
  split; [|split; [reflexivity | discriminate]].
  cbn [mergeLoop]. unfold m, n.
  apply Nat.ltb_lt in Hi, Hj. rewrite Hi, Hj. cbn [andb].
  apply String.eqb_neq in Hne. rewrite Hne.
  rewrite Htie, Nat.leb_refl. reflexivity.
Qed.

Lemma mergeLoop_tie_deletes_witness :
  mergeLoop ["a"; "b"; "c"] ["a"; "x"; "c"] 4 1 1 =
    option_map (cons (mkRec del "b"))
      (mergeLoop ["a"; "b"; "c"] ["a"; "x"; "c"] 3 2 1)
  /\ mergeLines ["a"; "b"; "c"] ["a"; "x"; "c"] =
       Some [mkRec same "a"; mkRec del "b"; mkRec add "x"; mkRec same "c"]
  /\ mergeLines ["a"; "b"; "c"] ["a"; "x"; "c"] <>
       Some [mkRec same "a"; mkRec add "x"; mkRec del "b"; mkRec same "c"].
Proof.
  apply (mergeLoop_tie_deletes ["a"; "b"; "c"] ["a"; "x"; "c"] 3 1 1).
  - simpl; lia.
  - simpl; lia.
  - discriminate.
  - vm_compute. reflexivity.
Defined.

(** C3: the number of non-[same] records equals
    [|old| + |new| - 2 * LCS_length old new], where [LCS_length] is the
    length of a longest common subsequence of the two line sequences. *)
Theorem mergeLines_minimal (old new : list string) :
  exists v, mergeLines old new = Some v /\
            nonSameCount v = length old + length new - 2 * LCS_length old new.
Proof.
  destruct (mergeLines_spec old new) as (v & Hv & Ho & Hn & Hs).
  exists v; split; [exact Hv|].
  rewrite <- lcs_LCS_length, <- Hs, <- Ho, <- Hn, sides_count. lia.
Qed.

(** C7: an empty old side gives only [add] records carrying [new] in
    order, an empty new side only [del] records carrying [old] in order, and
    two empty sides the empty Mergeview. *)
Theorem mergeLines_empty_sides (old new : list string) :
  mergeLines [] new = Some (map (mkRec add) new) /\
  mergeLines old [] = Some (map (mkRec del) old) /\
  mergeLines [] [] = Some [].
Proof.
  rewrite mergeLines_nil_l, mergeLines_nil_r. auto.
Qed.

(** C8: the aligner is total: for all texts, and for all line arrays, the
    reconstruction loop ends within its bound and a Mergeview is returned. *)
Theorem buildMergedLines_total :
  (forall oldText newText : string,
      exists v, buildMergedLines oldText newText = Some v) /\
  (forall old new : list string, exists v, mergeLines old new = Some v).
Proof.
  assert (H : forall old new, exists v, mergeLines old new = Some v).
  { intros old new. destruct (mergeLines_spec old new) as (v & Hv & _).
    now exists v. }
  split; [intros; apply H | exact H].
Qed.

(** C9: [buildMergedLines] takes text blobs: the empty text is zero lines,
    so an empty old text gives no [del] record and an empty new text no
    [add] record; a non-empty text is split on the newline character only
    (a carriage return stays in its line), and a non-empty text without
    newline is one line. *)
Theorem buildMergedLines_text_lines (t : string) :
  splitLines "" = [] /\
  (exists v, buildMergedLines "" t = Some v /\ Forall (fun r => type r <> del) v) /\
  (exists v, buildMergedLines t "" = Some v /\ Forall (fun r => type r <> add) v) /\
  (t <> "" -> splitLines t = split_nl t) /\
  (t <> "" -> count_nl t = 0 -> splitLines t = [t]) /\
  splitLines (String.append "a" (String (ascii_of_nat 13) (String newline "b"))) =
    [String.append "a" (String (ascii_of_nat 13) ""); "b"].
Proof.
  assert (Hne : t <> "" -> splitLines t = split_nl t).
  { intros H. unfold splitLines. apply String.eqb_neq in H. now rewrite H. }
  repeat split.
  - exists (map (mkRec add) (splitLines t)).
    split; [apply mergeLines_nil_l|].
    apply Forall_forall. intros r Hr. apply in_map_iff in Hr as (x & <- & _).
    discriminate.
  - exists (map (mkRec del) (splitLines t)).
    split; [apply mergeLines_nil_r|].
    apply Forall_forall. intros r Hr. apply in_map_iff in Hr as (x & <- & _).
    discriminate.
  - exact Hne.
  - intros H H0. rewrite Hne by exact H. now apply split_nl_no_newline.
Qed.

(* ------------------------------------------------------------------ *)
(** ** Line counts of the presenter *)

Lemma length_set_nth {A} i (x : A) l : length (set_nth i x l) = length l.
Proof.
  revert i; induction l as [|y l IH]; intros [|i]; simpl; auto.
Qed.

Lemma length_appendToLine idx t lines :
  length (appendToLine idx t lines) = Nat.max (length lines) (S idx).
Proof.
  unfold appendToLine. rewrite length_set_nth, length_app, repeat_length. lia.
Qed.

Lemma length_split_nl v : length (split_nl v) = S (count_nl v).
Proof.
  induction v as [|c v IH]; [reflexivity|].
  cbn [split_nl count_nl].
  destruct (split_nl v) as [|p ps]; [discriminate|].
  destruct (Ascii.eqb c newline); simpl in *; lia.
Qed.

Lemma string_append_nil_r s : String.append s "" = s.
Proof. induction s as [|c s IH]; simpl; [reflexivity | now rewrite IH]. Qed.

Lemma count_nl_app s t : count_nl (String.append s t) = count_nl s + count_nl t.
Proof. induction s as [|c s IH]; simpl; [reflexivity|]. rewrite IH. lia. Qed.

Lemma textParts_len parts lines li :
  parts <> [] ->
  snd (textParts parts lines li) = li + (length parts - 1) /\
  length (fst (textParts parts lines li)) =
    Nat.max (length lines) (S (li + (length parts - 1))).
Proof.
  revert lines li; induction parts as [|p ps IH]; intros lines li Hp.
  - now destruct Hp.
  - destruct ps as [|q qs].
    + cbn [textParts fst snd length]. rewrite length_appendToLine. lia.
    + change (textParts (p :: q :: qs) lines li) with
        (textParts (q :: qs)
           (appendToLine li (TText (escapeHtmlTextNode p)) lines) (S li)).
      destruct (IH (appendToLine li (TText (escapeHtmlTextNode p)) lines) (S li))
        as [H1 H2]; [discriminate|].
      rewrite H1, H2, length_appendToLine. cbn [length]. lia.
Qed.

Lemma closeTags_len tag k idx lines :
  idx + k <= length lines -> length (closeTags tag idx k lines) = length lines.
Proof.
  revert idx lines; induction k as [|k IH]; intros idx lines H; [reflexivity|].
  cbn [closeTags]. rewrite IH; rewrite length_appendToLine; lia.
Qed.

Lemma walk_len nd :
  forall lines li, li < length lines ->
  snd (walk nd lines li) = li + count_nl (textContent nd) /\
  length (fst (walk nd lines li)) =
    Nat.max (length lines) (S (li + count_nl (textContent nd))).
Proof.
  revert nd; fix IH 1; intros [v|tn attrs cs|] lines li Hli.
  - cbn [walk textContent].
    destruct (textParts_len (split_nl v) lines li) as [H1 H2];
      [rewrite <- length_zero_iff_nil, length_split_nl; discriminate|].
    rewrite length_split_nl in H1, H2. simpl in H1, H2.
    rewrite Nat.sub_0_r in H1, H2. auto.
  - assert (HC : forall cs lines li, li < length lines ->
              snd (walkChildren walk cs lines li) =
                li + count_nl (String.concat "" (map textContent cs)) /\
              length (fst (walkChildren walk cs lines li)) =
                Nat.max (length lines)
                  (S (li + count_nl (String.concat "" (map textContent cs))))).
    { clear tn attrs cs lines li Hli.
      induction cs as [|c cs IHc]; intros lines li Hli.
      - simpl. lia.
      - cbn [walkChildren map].
        destruct (IH c lines li Hli) as [W1 W2].
        destruct (walk c lines li) as [l' i'] eqn:Ew. simpl in W1, W2.
        destruct (IHc l' i') as [C1 C2]; [lia|].
        replace (String.concat "" (textContent c :: map textContent cs))
          with (String.append (textContent c) (String.concat "" (map textContent cs)))
          by (destruct cs; simpl; [now rewrite string_append_nil_r | reflexivity]).
        rewrite count_nl_app. split; [lia|]. rewrite C2. lia. }
    cbn [walk textContent].
    set (lines1 := appendToLine li _ lines).
    assert (L1 : length lines1 = length lines)
      by (unfold lines1; rewrite length_appendToLine; lia).
    destruct (HC cs lines1 li) as [C1 C2]; [lia|].
    destruct (walkChildren walk cs lines1 li) as [lines2 li2] eqn:Ec.
    simpl in C1, C2 |- *. split; [exact C1|].
    rewrite closeTags_len; rewrite ?length_appendToLine; lia.
  - simpl. lia.
Qed.

Lemma count_nl_concat l :
  count_nl (String.concat "" l) = list_sum (map count_nl l).
Proof.
  induction l as [|s l IH]; [reflexivity|].
  replace (String.concat "" (s :: l)) with (String.append s (String.concat "" l))
    by (destruct l; simpl; [now rewrite string_append_nil_r | reflexivity]).
  rewrite count_nl_app, IH. reflexivity.
Qed.

Lemma fold_walk_len nodes lines :
  1 <= length lines ->
  length lines <= length (fold_left (fun ls nd => fst (walk nd ls 0)) nodes lines) /\
  length (fold_left (fun ls nd => fst (walk nd ls 0)) nodes lines) <=
    Nat.max (length lines)
      (S (list_sum (map count_nl (map textContent nodes)))).
Proof.
  revert lines; induction nodes as [|nd nodes IH]; intros lines H1.
  - simpl. lia.
  - cbn [fold_left map list_sum fold_right].
    destruct (walk_len nd lines 0) as [_ W2]; [lia|].
    destruct (IH (fst (walk nd lines 0))) as [I1 I2]; [lia|].
    rewrite W2 in I1, I2. unfold list_sum in *. lia.
Qed.

Lemma trimLast_len lines :
  length lines - 1 <= length (trimLast lines) <= length lines /\
  (1 <= length lines -> 1 <= length (trimLast lines)).
Proof.
  unfold trimLast.
  destruct (Nat.ltb 1 (length lines)) eqn:E; cbn [andb]; [|lia].
  apply Nat.ltb_lt in E.
  destruct (String.eqb _ _); [|lia].
  rewrite removelast_firstn_len, length_firstn. lia.
Qed.

Lemma splitTokLines_len nodes :
  1 <= length (splitTokLines nodes) <=
  S (count_nl (String.concat "" (map textContent nodes))).
Proof.
  unfold splitTokLines.
  destruct (fold_walk_len nodes [[]]) as [F1 F2]; [simpl; lia|].
  destruct (trimLast_len (fold_left (fun ls nd => fst (walk nd ls 0)) nodes [[]]))
    as [[T1 T2] T3].
  rewrite count_nl_concat. simpl length in *. lia.
Qed.

Lemma renderLines_len hl types :
  length (renderLines hl types) = Nat.max (length hl) (length types).
Proof. unfold renderLines. now rewrite length_map, length_seq. Qed.

Lemma renderLines_nth hl types i :
  i < Nat.max (length hl) (length types) ->
  nth_error (renderLines hl types) i =
    Some (mkRendered (lineClass (typeAt types i)) (lineHtml hl i)).
Proof.
  intros H. unfold renderLines.
  rewrite nth_error_map, nth_error_seq.
  destruct (Nat.ltb_spec i (Nat.max (length hl) (length types))); [|lia].
  reflexivity.
Qed.

Lemma count_nl_join l :
  Forall (fun s => count_nl s = 0) l -> count_nl (join_nl l) = length l - 1.
Proof.
  induction 1 as [|x l Hx Hl IH]; [reflexivity|].
  destruct l as [|y l]; [simpl; lia|].
  change (join_nl (x :: y :: l)) with (String.append x (String newline (join_nl (y :: l)))).
  rewrite count_nl_app. cbn [count_nl]. rewrite IH, Hx.
  simpl length. rewrite Ascii.eqb_refl. lia.
Qed.

(* ------------------------------------------------------------------ *)
(** ** Claims about the renderer's line count *)

(** C10: the renderer tolerates a mismatch between the type array and the
    split highlight lines: it renders [max(hlLines.length, types.length)]
    lines; a line at or beyond the end of [types] is classified [same]
    (class [line] alone); a missing or empty highlight line is rendered as
    [&nbsp;], and a non-empty one as itself. *)
Theorem renderCombinedHighlighted_tolerant (highlighted : list node)
  (types : list string) (i : nat)
  (Hi : i < Nat.max (length (splitHighlightedHtmlToLines highlighted))
                    (length types)) :
  let hl := splitHighlightedHtmlToLines highlighted in
  length (renderCombinedHighlighted highlighted types) =
    Nat.max (length hl) (length types) /\
  exists r, nth_error (renderCombinedHighlighted highlighted types) i = Some r /\
    (length types <= i -> typeAt types i = "same" /\ className r = "line") /\
    (nth_error hl i = None \/ nth_error hl i = Some "" ->
       innerHTML r = "&nbsp;") /\
    (forall h, nth_error hl i = Some h -> h <> "" -> innerHTML r = h).
Proof.
  intros hl. unfold renderCombinedHighlighted. fold hl in Hi |- *.
  split; [apply renderLines_len|].
  eexists; split; [apply renderLines_nth; exact Hi|]. cbn [className innerHTML].
  repeat split.
  - unfold typeAt. now rewrite (proj2 (nth_error_None types i) H).
  - unfold typeAt. now rewrite (proj2 (nth_error_None types i) H).
  - unfold lineHtml. intros [E|E]; rewrite E; reflexivity.
  - intros h E Hne. unfold lineHtml. rewrite E.
    apply String.eqb_neq in Hne. now rewrite Hne.
Qed.

Lemma renderCombinedHighlighted_tolerant_witness :
  let hl := splitHighlightedHtmlToLines spanXY in
  length (renderCombinedHighlighted spanXY ["same"]) =
    Nat.max (length hl) (length ["same"]) /\
  exists r, nth_error (renderCombinedHighlighted spanXY ["same"]) 1 = Some r /\
    (length ["same"] <= 1 -> typeAt ["same"] 1 = "same" /\ className r = "line") /\
    (nth_error hl 1 = None \/ nth_error hl 1 = Some "" ->
       innerHTML r = "&nbsp;") /\
    (forall h, nth_error hl 1 = Some h -> h <> "" -> innerHTML r = h).
Proof.
  apply (renderCombinedHighlighted_tolerant spanXY ["same"] 1).
  vm_compute. lia.
Defined.

(* ------------------------------------------------------------------ *)
(** ** Re-splitting of elements across lines *)

(** In extension.ts, a continuation line of an element gets its closing tag
    but no re-opened copy of its opening tag; in part_001 every line of an
    element is wrapped in the element's opening and closing tags. *)
Theorem splitHighlightedHtmlToLines_no_reopen :
  splitTokLines spanXY =
    [[TOpen "span" [("class", "string")]; TText "x"; TClose "span"];
     [TText "y"; TClose "span"]] /\
  splitHighlightedHtmlToLines spanXY =
    [String.append "<span class=" (String.append dq
       (String.append "string" (String.append dq ">x</span>")));
     "y</span>"] /\
  balanced (nth 1 (splitTokLines spanXY) []) = false /\
  forallb balanced (splitTokLines_001 spanXY) = true.
Proof. repeat split; reflexivity. Qed.

(** The two-line span yields, in extension.ts, a second fragment with no
    copy of the span element; and every top-level node is walked from line
    0, so after a multi-line top-level text the next node's content lands on
    the first line: the text of the lines is no longer the original text. *)
Theorem splitHighlightedHtmlToLines_not_equivalent :
  nth 1 (splitTokLines spanXY) [] = [TText "y"; TClose "span"] /\
  splitTokLines restartXY =
    [[TText "a"; TOpen "span" []; TText "c"; TClose "span"]; [TText "b"]] /\
  join_nl (map line_text (splitTokLines restartXY)) <>
    String.concat "" (map textContent restartXY) /\
  join_nl (map line_text (splitTokLines_001 restartXY)) =
    String.concat "" (map textContent restartXY).
Proof.
  split; [reflexivity|]. split; [reflexivity|]. split; [|reflexivity].
  vm_compute. discriminate.
Qed.

(* ------------------------------------------------------------------ *)
(** ** part_001: every produced line is balanced *)

Lemma balancedFrom_app l :
  forall s stk r, balancedFrom s l = true ->
  balancedFrom (s ++ stk) (l ++ r) = balancedFrom stk r.
Proof.
  induction l as [|t l IH]; intros s stk r H.
  - destruct s; [reflexivity | discriminate].
  - destruct t as [tg a|tg|x]; cbn [balancedFrom app] in *.
    + exact (IH (tg :: s) stk r H).
    + destruct s as [|t' s]; [discriminate|].
      apply andb_true_iff in H as [H1 H2]. cbn [app].
      rewrite H1. cbn [andb]. apply IH, H2.
    + apply IH, H.
Qed.

Lemma balanced_app l1 l2 :
  balanced l1 = true -> balanced l2 = true -> balanced (l1 ++ l2) = true.
Proof.
  unfold balanced. intros H1 H2.
  rewrite <- (app_nil_l []) at 1. rewrite balancedFrom_app; assumption.
Qed.

Lemma balanced_wrap tg a l :
  balanced l = true -> balanced (TOpen tg a :: l ++ [TClose tg]) = true.
Proof.
  unfold balanced. intros H. cbn [balancedFrom].
  change [tg] with ([] ++ [tg]). rewrite balancedFrom_app by exact H.
  cbn. now rewrite String.eqb_refl.
Qed.

Lemma in_removelast {A} (x : A) l : In x (removelast l) -> In x l.
Proof.
  induction l as [|y l IH]; [auto|].
  destruct l as [|z l]; simpl in *; [tauto|].
  intros [H|H]; [now left | right; apply IH, H].
Qed.

Lemma in_last {A} (l : list A) d : l <> [] -> In (last l d) l.
Proof.
  induction l as [|y l IH]; [tauto|]. intros _.
  destruct l as [|z l]; [now left|].
  right. apply IH. discriminate.
Qed.

Lemma appendLines_balanced acc more :
  Forall (fun l => balanced l = true) acc ->
  Forall (fun l => balanced l = true) more ->
  Forall (fun l => balanced l = true) (appendLines acc more).
Proof.
  intros Ha Hm. destruct more as [|first rest]; [exact Ha|].
  inversion Hm as [|? ? Hf Hr]; subst. unfold appendLines.
  rewrite Forall_forall in Ha.
  apply Forall_app; split; [apply Forall_forall; intros x Hx; apply Ha, in_removelast, Hx|].
  constructor; [|exact Hr].
  apply balanced_app; [|exact Hf].
  destruct acc as [|y acc]; [reflexivity|].
  apply Ha, in_last. discriminate.
Qed.

Lemma fold_appendLines_balanced ls acc :
  Forall (fun l => balanced l = true) acc ->
  Forall (Forall (fun l => balanced l = true)) ls ->
  Forall (fun l => balanced l = true) (fold_left appendLines ls acc).
Proof.
  revert acc; induction ls as [|x ls IH]; intros acc Ha Hl; [exact Ha|].
  inversion Hl; subst. apply IH; [apply appendLines_balanced|]; assumption.
Qed.

Lemma nodeToLines_balanced nd :
  Forall (fun l => balanced l = true) (nodeToLines nd).
Proof.
  revert nd; fix IH 1; intros [v|tn attrs cs|].
  - cbn [nodeToLines]. apply Forall_map, Forall_forall. reflexivity.
  - cbn [nodeToLines]. apply Forall_map.
    assert (Hc : Forall (Forall (fun l => balanced l = true)) (map nodeToLines cs)).
    { clear tn attrs. induction cs as [|c cs IHc]; constructor; [apply IH | exact IHc]. }
    assert (H0 : Forall (fun l => balanced l = true) [[]]) by (repeat constructor).
    pose proof (fold_appendLines_balanced _ [[]] H0 Hc) as Hf.
    eapply Forall_impl; [|exact Hf]. intros l Hl. apply balanced_wrap, Hl.
  - repeat constructor.
Qed.

(** Every line that part_001 produces, for every highlighted tree, is
    balanced: the sibling of [splitHighlightedHtmlToLines] re-opens each
    element on every line it touches. *)
Lemma splitTokLines_001_balanced highlighted :
  Forall (fun l => balanced l = true) (splitTokLines_001 highlighted).
Proof.
  unfold splitTokLines_001.
  assert (H : Forall (fun l => balanced l = true)
                (fold_left (fun acc nd => appendLines acc (nodeToLines nd))
                           highlighted [[]])).
  { assert (H0 : Forall (fun l => balanced l = true) [[]]) by (repeat constructor).
    revert H0. generalize ([[]] : list (list tok)).
    induction highlighted as [|nd hs IH]; intros acc Ha; [exact Ha|].
    cbn [fold_left]. apply IH, appendLines_balanced; [exact Ha|].
    apply nodeToLines_balanced. }
  unfold trimLast. destruct (_ && _)%bool; [|exact H].
  rewrite Forall_forall in H |- *. intros x Hx. apply H, in_removelast, Hx.
Qed.

(* ------------------------------------------------------------------ *)
(** ** Escaping and decoding *)

Lemma string_append_assoc s t u :
  String.append (String.append s t) u = String.append s (String.append t u).
Proof. induction s as [|c s IH]; simpl; [reflexivity|]. now rewrite IH. Qed.

Lemma decode_plain c s :
  Ascii.eqb c amp = false ->
  decodeEntities (String c s) = String c (decodeEntities s).
Proof. intros H. cbn [decodeEntities]. now rewrite H. Qed.

Lemma decode_replaceChars (f : ascii -> string) :
  (forall c s, decodeEntities (String.append (f c) s) = String c (decodeEntities s)) ->
  forall s, decodeEntities (replaceChars f s) = s.
Proof.
  intros Hf s; induction s as [|c s IH]; [reflexivity|].
  cbn [replaceChars]. now rewrite Hf, IH.
Qed.

Lemma hasChar_app d s t :
  hasChar d (String.append s t) = hasChar d s || hasChar d t.
Proof.
  induction s as [|c s IH]; [reflexivity|].
  cbn [String.append hasChar]. now rewrite IH, orb_assoc.
Qed.

Lemma hasChar_replaceChars d f :
  (forall c, hasChar d (f c) = false) ->
  forall s, hasChar d (replaceChars f s) = false.
Proof.
  intros Hf s; induction s as [|c s IH]; [reflexivity|].
  cbn [replaceChars]. now rewrite hasChar_app, Hf, IH.
Qed.


Lemma escapeHtmlChar_decode c s :
  decodeEntities (String.append (escapeHtmlChar c) s) = String c (decodeEntities s).
Proof.
  unfold escapeHtmlChar. char_cases. cbn [String.append].
  apply decode_plain; assumption.
Qed.

Lemma escapeHtmlChar_001_decode c s :
  decodeEntities (String.append (escapeHtmlChar_001 c) s) = String c (decodeEntities s).
Proof.
  unfold escapeHtmlChar_001. char_cases. cbn [String.append].
  apply decode_plain; assumption.
Qed.

Lemma escapeHtmlChar_panel_decode c s :
  decodeEntities (String.append (escapeHtmlChar_panel c) s) = String c (decodeEntities s).
Proof.
  unfold escapeHtmlChar_panel. char_cases. cbn [String.append].
  apply decode_plain; assumption.
Qed.

Lemma escapeHtmlChar_safe c d :
  In d [lt_c; gt_c; dq_c] -> hasChar d (escapeHtmlChar c) = false.
Proof.
  intros Hd. unfold escapeHtmlChar.
  destruct Hd as [<-|[<-|[<-|[]]]]; char_cases; cbn [hasChar];
    rewrite orb_false_r; assumption.
Qed.

Lemma escapeHtmlChar_001_safe c d :
  In d [lt_c; gt_c; dq_c; sq_c] -> hasChar d (escapeHtmlChar_001 c) = false.
Proof.
  intros Hd. unfold escapeHtmlChar_001.
  destruct Hd as [<-|[<-|[<-|[<-|[]]]]]; char_cases; cbn [hasChar];
    rewrite orb_false_r; assumption.
Qed.

Lemma escapeHtmlChar_panel_safe c d :
  In d [lt_c; gt_c; dq_c; sq_c] -> hasChar d (escapeHtmlChar_panel c) = false.
Proof.
  intros Hd. unfold escapeHtmlChar_panel.
  destruct Hd as [<-|[<-|[<-|[<-|[]]]]]; char_cases; cbn [hasChar];
    rewrite orb_false_r; assumption.
Qed.


Lemma escapeHtmlTextNode_replaceChars s :
  escapeHtmlTextNode s = replaceChars escapeTextChar s.
Proof.
  induction s as [|c s IH]; [reflexivity|].
  cbn [escapeHtmlTextNode replaceChars]. now rewrite IH.
Qed.

Lemma escapeTextChar_decode c s :
  decodeEntities (String.append (escapeTextChar c) s) = String c (decodeEntities s).
Proof.
  unfold escapeTextChar. char_cases. cbn [String.append].
  apply decode_plain; assumption.
Qed.

Lemma escapeTextChar_safe c d :
  In d [lt_c; gt_c] -> hasChar d (escapeTextChar c) = false.
Proof.
  intros Hd. unfold escapeTextChar.
  destruct Hd as [<-|[<-|[]]]; char_cases; cbn [hasChar];
    rewrite orb_false_r; assumption.
Qed.

Lemma replace_char_app c r s t :
  replace_char c r (String.append s t) =
  String.append (replace_char c r s) (replace_char c r t).
Proof.
  induction s as [|d s IH]; [reflexivity|].
  cbn [String.append replace_char]. now rewrite IH, string_append_assoc.
Qed.


Lemma escapeAttr_replaceChars s : escapeAttr s = replaceChars escapeAttrChar s.
Proof.
  induction s as [|c s IH]; [reflexivity|].
  cbn [replaceChars]. rewrite <- IH. unfold escapeAttr.
  change (String c s) with (String.append (String c EmptyString) s).
  rewrite !replace_char_app. f_equal.
  unfold escapeAttrChar. char_cases.
  unfold amp, lt_c, gt_c, dq_c in *.
  repeat (cbn [replace_char String.append];
          match goal with
          | H : Ascii.eqb c ?d = false |- context [Ascii.eqb c ?d] => rewrite H
          end).
  reflexivity.
Qed.


Lemma escapeAttr_001_replaceChars s : escapeAttr_001 s = replaceChars escapeAttrChar_001 s.
Proof.
  induction s as [|c s IH]; [reflexivity|].
  cbn [replaceChars]. rewrite <- IH. unfold escapeAttr_001.
  change (String c s) with (String.append (String c EmptyString) s).
  rewrite !replace_char_app. f_equal.
  unfold escapeAttrChar_001. char_cases.
  unfold amp, lt_c, gt_c, dq_c in *.
  repeat (cbn [replace_char String.append];
          match goal with
          | H : Ascii.eqb c ?d = false |- context [Ascii.eqb c ?d] => rewrite H
          end).
  reflexivity.
Qed.

Lemma escapeAttrChar_decode c s :
  decodeEntities (String.append (escapeAttrChar c) s) =
  String.append (if Ascii.eqb c dq_c then "&quot;" else String c EmptyString)
                (decodeEntities s).
Proof.
  unfold escapeAttrChar. char_cases. cbn [String.append].
  apply decode_plain; assumption.
Qed.

Lemma escapeAttrChar_001_decode c s :
  decodeEntities (String.append (escapeAttrChar_001 c) s) = String c (decodeEntities s).
Proof.
  unfold escapeAttrChar_001. char_cases. cbn [String.append].
  apply decode_plain; assumption.
Qed.

Lemma escapeAttrChar_safe c d :
  In d [lt_c; gt_c; dq_c] -> hasChar d (escapeAttrChar c) = false.
Proof.
  intros Hd. unfold escapeAttrChar.
  destruct Hd as [<-|[<-|[<-|[]]]]; char_cases; cbn [hasChar];
    rewrite orb_false_r; assumption.
Qed.

Lemma escapeAttrChar_001_safe c d :
  In d [lt_c; gt_c; dq_c] -> hasChar d (escapeAttrChar_001 c) = false.
Proof.
  intros Hd. unfold escapeAttrChar_001.
  destruct Hd as [<-|[<-|[<-|[]]]]; char_cases; cbn [hasChar];
    rewrite orb_false_r; assumption.
Qed.

Lemma replace_dq_id s :
  replace_char dq_c "&quot;" s = s <-> hasChar dq_c s = false.
Proof.
  induction s as [|d s IH]; [split; reflexivity|].
  cbn [replace_char hasChar].
  destruct (Ascii.eqb d dq_c) eqn:E.
  - apply Ascii.eqb_eq in E; subst d. split; [|discriminate].
    cbn [String.append]. intros H. injection H as H _. discriminate H.
  - cbn [String.append orb]. rewrite <- IH. split.
    + intros H. now injection H.
    + intros ->. reflexivity.
Qed.

(* ------------------------------------------------------------------ *)
(** ** Splitting and joining on one character *)

Lemma split_on_not_nil sep s : split_on sep s <> [].
Proof.
  destruct s as [|c s]; cbn [split_on]; [discriminate|].
  destruct (Ascii.eqb c sep); [discriminate|].
  destruct (split_on sep s); discriminate.
Qed.

Lemma split_nl_split_on s : split_nl s = split_on newline s.
Proof.
  induction s as [|c s IH]; [reflexivity|]. cbn [split_nl split_on]. now rewrite IH.
Qed.

Lemma join_nl_join_on l : join_nl l = join_on newline l.
Proof.
  induction l as [|x [|y l] IH]; [reflexivity|reflexivity|].
  change (join_nl (x :: y :: l)) with (String.append x (String newline (join_nl (y :: l)))).
  now rewrite IH.
Qed.

Lemma split_on_no_sep sep s : hasChar sep s = false -> split_on sep s = [s].
Proof.
  induction s as [|c s IH]; intros H; [reflexivity|].
  cbn [hasChar] in H. apply orb_false_iff in H as [H1 H2].
  cbn [split_on]. rewrite H1, IH by exact H2. reflexivity.
Qed.

Lemma split_on_app_sep sep h t :
  hasChar sep h = false ->
  split_on sep (String.append h (String sep t)) = h :: split_on sep t.
Proof.
  induction h as [|c h IH]; intros H.
  - cbn [String.append split_on]. now rewrite Ascii.eqb_refl.
  - cbn [hasChar] in H. apply orb_false_iff in H as [H1 H2].
    cbn [String.append split_on]. rewrite H1, IH by exact H2. reflexivity.
Qed.

Lemma join_on_cons_char sep c p ps :
  join_on sep (String c p :: ps) = String c (join_on sep (p :: ps)).
Proof. destruct ps; reflexivity. Qed.

Lemma join_split_on sep s : join_on sep (split_on sep s) = s.
Proof.
  induction s as [|c s IH]; [reflexivity|].
  cbn [split_on].
  destruct (Ascii.eqb c sep) eqn:E.
  - apply Ascii.eqb_eq in E; subst c.
    destruct (split_on sep s) as [|p ps] eqn:Hs; [now apply split_on_not_nil in Hs|].
    cbn [join_on]. rewrite <- IH. reflexivity.
  - destruct (split_on sep s) as [|p ps] eqn:Hs; [now apply split_on_not_nil in Hs|].
    rewrite join_on_cons_char, IH. reflexivity.
Qed.

Lemma split_join_on sep l :
  Forall (fun x => hasChar sep x = false) l -> l <> [] ->
  split_on sep (join_on sep l) = l.
Proof.
  induction 1 as [|x l Hx Hl IH]; intros Hne; [congruence|].
  destruct l as [|y l].
  - now apply split_on_no_sep.
  - change (join_on sep (x :: y :: l))
      with (String.append x (String sep (join_on sep (y :: l)))).
    rewrite split_on_app_sep by exact Hx. rewrite IH by discriminate. reflexivity.
Qed.

Lemma count_nl_hasChar s : count_nl s = 0 <-> hasChar newline s = false.
Proof.
  induction s as [|c s IH]; [split; reflexivity|].
  cbn [count_nl hasChar]. rewrite orb_false_iff, <- IH.
  destruct (Ascii.eqb c newline); split; intros H; try discriminate; intuition lia.
Qed.

Lemma join_split_nl s : join_nl (split_nl s) = s.
Proof. now rewrite join_nl_join_on, split_nl_split_on, join_split_on. Qed.

Lemma split_join_nl l :
  Forall (fun x => count_nl x = 0) l -> l <> [] -> split_nl (join_nl l) = l.
Proof.
  intros Hl Hne. rewrite split_nl_split_on, join_nl_join_on.
  apply split_join_on; [|exact Hne].
  eapply Forall_impl; [|exact Hl]. intros x Hx. now apply count_nl_hasChar.
Qed.

Lemma split_nl_pieces s : Forall (fun p => count_nl p = 0) (split_nl s).
Proof.
  induction s as [|c s IH]; cbn [split_nl]; [repeat constructor|].
  destruct (Ascii.eqb c newline) eqn:E; [constructor; [reflexivity|exact IH]|].
  destruct (split_nl s) as [|p ps]; [repeat constructor; cbn [count_nl]; now rewrite E|].
  inversion IH as [|? ? Hp Hps]; subst.
  constructor; [cbn [count_nl]; rewrite E, Hp; reflexivity | exact Hps].
Qed.

Lemma hasChar_append_cons d h c t :
  hasChar d (String.append h (String c t)) = hasChar d h || Ascii.eqb c d || hasChar d t.
Proof. rewrite hasChar_app. cbn [hasChar]. now rewrite orb_assoc. Qed.

Lemma bar_newline : Ascii.eqb bar newline = false.
Proof. reflexivity. Qed.

Lemma split_on_concat_terminated sep names :
  Forall (fun f => hasChar sep f = false) names ->
  split_on sep (String.concat ""
     (map (fun f => String.append f (String sep EmptyString)) names)) = names ++ [""].
Proof.
  induction 1 as [|f names Hf Hn IH]; [reflexivity|].
  replace (String.concat "" (map (fun f => String.append f (String sep EmptyString)) (f :: names)))
    with (String.append f (String sep (String.concat ""
            (map (fun f => String.append f (String sep EmptyString)) names)))).
  - rewrite split_on_app_sep by exact Hf. now rewrite IH.
  - cbn [map]. destruct names as [|g names]; cbn [String.concat].
    + now rewrite string_append_nil_r.
    + rewrite string_append_assoc. reflexivity.
Qed.

(* ------------------------------------------------------------------ *)
(** ** Mergeview counting and texts *)

Lemma lcs_refl a : lcs a a = length a.
Proof.
  induction a as [|x a IH]; [reflexivity|].
  rewrite lcs_cons_cons, String.eqb_refl, IH. reflexivity.
Qed.

Lemma length_counts v : length v = nonSameCount v + sameCount v.
Proof.
  induction v as [|r v IH]; [reflexivity|].
  rewrite sameCount_cons. unfold nonSameCount in *. cbn [filter length].
  destruct (isSame r); cbn [negb length]; lia.
Qed.

Lemma oldSide_le v : length (oldSide v) <= length v.
Proof. unfold oldSide. rewrite length_map. apply filter_length_le. Qed.

Lemma newSide_le v : length (newSide v) <= length v.
Proof. unfold newSide. rewrite length_map. apply filter_length_le. Qed.

Lemma all_same v : nonSameCount v = 0 -> v = map (mkRec same) (oldSide v).
Proof.
  induction v as [|[k t] v IH]; intros H; [reflexivity|].
  unfold nonSameCount in H. rewrite oldSide_cons.
  destruct k; cbn [filter isSame negb type length] in H; try discriminate.
  cbn [isOldSide type text map]. f_equal. now apply IH.
Qed.

Lemma text_in_sides v r :
  In r v -> In (text r) (oldSide v) \/ In (text r) (newSide v).
Proof.
  induction v as [|r' v IH]; intros H; [destruct H|].
  rewrite oldSide_cons, newSide_cons.
  destruct H as [E|H].
  - subst r'. destruct r as [[] t]; cbn [isOldSide isNewSide type text];
      [left|left|right]; now left.
  - destruct (IH H) as [H'|H'].
    + left. destruct (isOldSide r'); [now right | exact H'].
    + right. destruct (isNewSide r'); [now right | exact H'].
Qed.

Lemma splitLines_pieces t : Forall (fun p => count_nl p = 0) (splitLines t).
Proof.
  unfold splitLines. destruct (String.eqb t ""); [constructor|apply split_nl_pieces].
Qed.

Lemma splitLines_nil t : splitLines t = [] <-> t = "".
Proof.
  unfold splitLines. destruct (String.eqb t "") eqn:E.
  - apply String.eqb_eq in E. split; auto.
  - apply String.eqb_neq in E. split; [|congruence].
    rewrite split_nl_split_on. intros H. now apply split_on_not_nil in H.
Qed.

Lemma join_splitLines t : join_nl (splitLines t) = t.
Proof.
  unfold splitLines. destruct (String.eqb t "") eqn:E.
  - apply String.eqb_eq in E. now subst.
  - apply join_split_nl.
Qed.

(** The texts of the Mergeview of two texts hold no newline. *)
Lemma merged_texts_no_newline oldText newText v :
  buildMergedLines oldText newText = Some v ->
  Forall (fun r => count_nl (text r) = 0) v.
Proof.
  intros Hv. unfold buildMergedLines in Hv.
  destruct (mergeLines_spec (splitLines oldText) (splitLines newText))
    as (v' & Hv' & Ho & Hn & _).
  rewrite Hv in Hv'. injection Hv' as <-.
  apply Forall_forall. intros r Hr.
  destruct (text_in_sides v r Hr) as [H|H].
  - rewrite Ho in H. pose proof (splitLines_pieces oldText) as P.
    rewrite Forall_forall in P. now apply P.
  - rewrite Hn in H. pose proof (splitLines_pieces newText) as P.
    rewrite Forall_forall in P. now apply P.
Qed.

(* ------------------------------------------------------------------ *)
(** ** The repository-root search *)

Lemma dirname_firstn (D : list string) k :
  S k <= length D -> dirname (firstn (S k) D) = firstn k D.
Proof.
  intros H. unfold dirname.
  rewrite removelast_firstn_len, firstn_firstn, length_firstn.
  f_equal. lia.
Qed.

Lemma firstn_S_not_dirname (D : list string) k :
  S k <= length D -> firstn (S k) D <> dirname (firstn (S k) D).
Proof.
  intros H E. rewrite dirname_firstn in E by exact H.
  apply (f_equal (@length string)) in E. rewrite !length_firstn in E. lia.
Qed.

(** The walk up from [firstn k D], the [k]-segment ancestor of [D]. *)
Lemma findRootLoop_spec hasGit (D : list string) k f :
  k <= length D -> k < f ->
  match findRootLoop hasGit f (firstn k D) with
  | Some d => exists j, 1 <= j <= k /\ d = firstn j D /\ hasGit d = true /\
                forall j', j < j' <= k -> hasGit (firstn j' D) = false
  | None => forall j, 1 <= j <= k -> hasGit (firstn j D) = false
  end.
Proof.
  revert f; induction k as [|k IH]; intros f Hk Hf.
  - destruct f as [|f]; [lia|]. cbn [findRootLoop firstn].
    destruct (list_eq_dec string_dec [] (dirname [])) as [_|C];
      [intros j Hj; lia | now elim C].
  - destruct f as [|f]; [lia|]. cbn [findRootLoop].
    destruct (list_eq_dec string_dec (firstn (S k) D) (dirname (firstn (S k) D)))
      as [C|_]; [now apply firstn_S_not_dirname in C|].
    destruct (hasGit (firstn (S k) D)) eqn:G.
    + exists (S k). repeat split; auto; lia.
    + rewrite dirname_firstn by exact Hk.
      specialize (IH f ltac:(lia) ltac:(lia)).
      destruct (findRootLoop hasGit f (firstn k D)) as [d|].
      * destruct IH as (j & Hj & -> & Hg & Hn). exists j.
        repeat split; auto; try lia.
        intros j' Hj'. destruct (Nat.eq_dec j' (S k)) as [->|]; [exact G|].
        apply Hn. lia.
      * intros j Hj. destruct (Nat.eq_dec j (S k)) as [->|]; [exact G|].
        apply IH. lia.
Qed.

Lemma findRootLoop_001_spec hasGit (D : list string) k f :
  k <= length D -> k < f ->
  match findRootLoop_001 hasGit f (firstn k D) with
  | Some d => exists j, j <= k /\ d = firstn j D /\ hasGit d = true /\
                forall j', j < j' <= k -> hasGit (firstn j' D) = false
  | None => forall j, j <= k -> hasGit (firstn j D) = false
  end.
Proof.
  revert f; induction k as [|k IH]; intros f Hk Hf.
  - destruct f as [|f]; [lia|]. cbn [findRootLoop_001 firstn].
    destruct (hasGit []) eqn:G.
    + exists 0. repeat split; auto; lia.
    + destruct (list_eq_dec string_dec (dirname []) []) as [_|C];
        [|now elim C].
      intros j Hj. replace j with 0 by lia. exact G.
  - destruct f as [|f]; [lia|]. cbn [findRootLoop_001].
    destruct (hasGit (firstn (S k) D)) eqn:G.
    + exists (S k). repeat split; auto; lia.
    + destruct (list_eq_dec string_dec (dirname (firstn (S k) D)) (firstn (S k) D))
        as [C|_]; [symmetry in C; now apply firstn_S_not_dirname in C|].
      rewrite dirname_firstn by exact Hk.
      specialize (IH f ltac:(lia) ltac:(lia)).
      destruct (findRootLoop_001 hasGit f (firstn k D)) as [d|].
      * destruct IH as (j & Hj & -> & Hg & Hn). exists j.
        repeat split; auto; try lia.
        intros j' Hj'. destruct (Nat.eq_dec j' (S k)) as [->|]; [exact G|].
        apply Hn. lia.
      * intros j Hj. destruct (Nat.eq_dec j (S k)) as [->|]; [exact G|].
        apply IH. lia.
Qed.

(* ------------------------------------------------------------------ *)
(** ** Line texts of the part_001 split *)

Lemma string_concat_cons t ts :
  String.concat "" (t :: ts) = String.append t (String.concat "" ts).
Proof. destruct ts; cbn [String.concat]; [now rewrite string_append_nil_r | reflexivity]. Qed.

Lemma string_concat_app l1 l2 :
  String.concat "" (l1 ++ l2) = String.append (String.concat "" l1) (String.concat "" l2).
Proof.
  induction l1 as [|x l1 IH]; [reflexivity|].
  rewrite <- app_comm_cons, !string_concat_cons, IH. apply eq_sym, string_append_assoc.
Qed.

Lemma line_text_app l1 l2 :
  line_text (l1 ++ l2) = String.append (line_text l1) (line_text l2).
Proof. unfold line_text. now rewrite map_app, string_concat_app. Qed.

Lemma line_text_wrap o c l : line_text (TOpen o c :: l ++ [TClose o]) = line_text l.
Proof.
  change (TOpen o c :: l ++ [TClose o]) with ((TOpen o c :: l) ++ [TClose o]).
  rewrite line_text_app. unfold line_text at 1 3. cbn [map].
  rewrite string_concat_cons. cbn [String.append].
  change (String.concat "" (map (fun t => match t with TText s => s | _ => "" end) l))
    with (line_text l).
  rewrite !string_append_nil_r. reflexivity.
Qed.

Lemma map_removelast {A B} (f : A -> B) l : map f (removelast l) = removelast (map f l).
Proof.
  induction l as [|x [|y l] IH]; [reflexivity|reflexivity|].
  change (removelast (x :: y :: l)) with (x :: removelast (y :: l)).
  cbn [map]. rewrite IH. reflexivity.
Qed.

Lemma map_last {A B} (f : A -> B) l d : f (last l d) = last (map f l) (f d).
Proof.
  induction l as [|x [|y l] IH]; [reflexivity|reflexivity|].
  change (last (x :: y :: l) d) with (last (y :: l) d). rewrite IH. reflexivity.
Qed.

Lemma map_line_text_appendLines acc more :
  map line_text (appendLines acc more) =
  appendTexts (map line_text acc) (map line_text more).
Proof.
  destruct more as [|first rest]; [reflexivity|].
  cbn [appendLines appendTexts map]. rewrite !map_app, map_removelast.
  cbn [map]. rewrite line_text_app, map_last. reflexivity.
Qed.

Lemma split_nl_app s t :
  split_nl (String.append s t) = appendTexts (split_nl s) (split_nl t).
Proof.
  assert (Ht : split_nl t <> []) by (rewrite split_nl_split_on; apply split_on_not_nil).
  induction s as [|c s IH].
  - cbn [String.append]. change (split_nl "") with [EmptyString].
    destruct (split_nl t) as [|f r]; [congruence|]. reflexivity.
  - cbn [String.append split_nl]. rewrite IH.
    destruct (split_nl t) as [|f r] eqn:Et; [congruence|].
    assert (Hs : split_nl s <> []) by (rewrite split_nl_split_on; apply split_on_not_nil).
    destruct (split_nl s) as [|q qs]; [congruence|].
    destruct (Ascii.eqb c newline).
    + cbn [appendTexts]. destruct qs; reflexivity.
    + destruct qs as [|q' qs]; [reflexivity|].
      cbn [appendTexts]. reflexivity.
Qed.

Lemma fold_appendTexts_split ts a :
  fold_left appendTexts (map split_nl ts) (split_nl a) =
  split_nl (String.append a (String.concat "" ts)).
Proof.
  revert a; induction ts as [|t ts IH]; intros a.
  - cbn. now rewrite string_append_nil_r.
  - cbn [map fold_left]. rewrite <- split_nl_app, IH.
    now rewrite string_concat_cons, string_append_assoc.
Qed.

Lemma fold_map_line_text Ls acc :
  map line_text (fold_left appendLines Ls acc) =
  fold_left appendTexts (map (map line_text) Ls) (map line_text acc).
Proof.
  revert acc; induction Ls as [|L Ls IH]; intros acc; [reflexivity|].
  cbn [fold_left map]. now rewrite IH, map_line_text_appendLines.
Qed.

Lemma nodeToLines_texts nd :
  map line_text (nodeToLines nd) = split_nl (textContent nd).
Proof.
  revert nd; fix IH 1; intros [v|tn attrs cs|].
  - cbn [nodeToLines textContent]. rewrite map_map.
    unfold line_text. cbn [map]. rewrite <- (map_id (split_nl v)) at 2.
    apply map_ext. intros p. cbn. rewrite ?string_append_nil_r. reflexivity.
  - cbn [nodeToLines textContent]. rewrite map_map.
    rewrite (map_ext _ line_text) by (intros l; apply line_text_wrap).
    rewrite fold_map_line_text, map_map.
    assert (Hc : map (fun x => map line_text (nodeToLines x)) cs =
                 map split_nl (map textContent cs)).
    { clear tn attrs. induction cs as [|c cs IHc]; [reflexivity|].
      cbn [map]. now rewrite IH, IHc. }
    rewrite Hc. exact (fold_appendTexts_split _ "").
  - reflexivity.
Qed.

Lemma fold_nodeToLines nodes acc :
  fold_left (fun acc nd => appendLines acc (nodeToLines nd)) nodes acc =
  fold_left appendLines (map nodeToLines nodes) acc.
Proof.
  revert acc; induction nodes as [|nd nodes IH]; intros acc; [reflexivity|].
  cbn [fold_left map]. apply IH.
Qed.

Lemma string_append_empty a b : String.append a b = "" -> a = "" /\ b = "".
Proof. destruct a; [auto|discriminate]. Qed.

Lemma line_html_empty l : line_html l = "" -> line_text l = "".
Proof.
  induction l as [|t l IH]; intros H; [reflexivity|].
  unfold line_html in H. cbn [map] in H. rewrite string_concat_cons in H.
  apply string_append_empty in H as [Ht Hl].
  unfold line_text. cbn [map]. rewrite string_concat_cons.
  change (String.concat "" (map (fun t => match t with TText s => s | _ => "" end) l))
    with (line_text l).
  rewrite IH by exact Hl.
  destruct t as [o a|o|s]; cbn [tok_html] in Ht; try discriminate.
  subst s. reflexivity.
Qed.

Lemma map_line_text_trimLast L :
  map line_text (trimLast L) = map line_text L \/
  map line_text (trimLast L) ++ [""] = map line_text L.
Proof.
  unfold trimLast.
  destruct (Nat.ltb 1 (length L)) eqn:E1; cbn [andb]; [|now left].
  destruct (String.eqb (line_html (last L [])) "") eqn:E2; [|now left].
  right. apply String.eqb_eq, line_html_empty in E2.
  apply Nat.ltb_lt in E1.
  assert (HL : L <> []) by (intros ->; simpl in E1; lia).
  rewrite map_removelast.
  replace [""] with [last (map line_text L) (line_text [])]
    by (now rewrite <- map_last, E2).
  symmetry. apply app_removelast_last. now rewrite <- length_zero_iff_nil, length_map,
    length_zero_iff_nil.
Qed.

(* ------------------------------------------------------------------ *)
(** ** Properties of the escaping functions *)

(** [escapeHtml] of extension.ts and the webview's [escapeHtml] are undone
    by the browser's decoding of character references, and their output
    holds no raw [<], [>] or double quote. *)
Theorem escapeHtml_roundtrip (s : string) :
  (decodeEntities (escapeHtml (Some s)) = s /\
   forall d, In d [lt_c; gt_c; dq_c] -> hasChar d (escapeHtml (Some s)) = false) /\
  (decodeEntities (escapeHtml_webview (Some s)) = s /\
   forall d, In d [lt_c; gt_c; dq_c] -> hasChar d (escapeHtml_webview (Some s)) = false).
Proof.
  assert (W : decodeEntities (replaceChars escapeHtmlChar s) = s /\
              forall d, In d [lt_c; gt_c; dq_c] ->
                hasChar d (replaceChars escapeHtmlChar s) = false).
  { split; [apply decode_replaceChars, escapeHtmlChar_decode|].
    intros d Hd. apply hasChar_replaceChars. intros c. now apply escapeHtmlChar_safe. }
  split; [|exact W].
  unfold escapeHtml. destruct (String.eqb s "") eqn:E; [|exact W].
  apply String.eqb_eq in E. subst s. split; reflexivity.
Qed.

(** The [escapeHtml] of part_001 and the one of the panel classes of
    extension.ts are undone by decoding, and their output holds no raw [<],
    [>], double quote or single quote. *)
Theorem escapeHtml_quotes_roundtrip (s : string) :
  (decodeEntities (escapeHtml_001 (Some s)) = s /\
   forall d, In d [lt_c; gt_c; dq_c; sq_c] ->
     hasChar d (escapeHtml_001 (Some s)) = false) /\
  (decodeEntities (escapeHtml_panel (Some s)) = s /\
   forall d, In d [lt_c; gt_c; dq_c; sq_c] ->
     hasChar d (escapeHtml_panel (Some s)) = false).
Proof.
  split.
  - unfold escapeHtml_001. destruct (String.eqb s "") eqn:E.
    + apply String.eqb_eq in E. subst s. split; [reflexivity|]. reflexivity.
    + split; [apply decode_replaceChars, escapeHtmlChar_001_decode|].
      intros d Hd. apply hasChar_replaceChars. intros c.
      now apply escapeHtmlChar_001_safe.
  - unfold escapeHtml_panel. split; [apply decode_replaceChars, escapeHtmlChar_panel_decode|].
    intros d Hd. apply hasChar_replaceChars. intros c.
    now apply escapeHtmlChar_panel_safe.
Qed.

(** [escapeHtmlTextNode] (extension.ts webview) is undone by decoding and
    leaves no raw [<] or [>]. *)
Theorem escapeHtmlTextNode_roundtrip (s : string) :
  decodeEntities (escapeHtmlTextNode s) = s /\
  hasChar lt_c (escapeHtmlTextNode s) = false /\
  hasChar gt_c (escapeHtmlTextNode s) = false.
Proof.
  rewrite escapeHtmlTextNode_replaceChars.
  split; [apply decode_replaceChars, escapeTextChar_decode|].
  split; apply hasChar_replaceChars; intros c; apply escapeTextChar_safe; simpl; auto.
Qed.

(** [escapeAttr] of extension.ts escapes a double quote twice: decoding its
    output gives the value with every double quote replaced by the text
    [&quot;], so the value comes back unchanged exactly when it has no double
    quote; its output holds no raw double quote, [<] or [>]. *)
Theorem escapeAttr_double_escapes_quotes (s : string) :
  decodeEntities (escapeAttr s) = replace_char dq_c "&quot;" s /\
  (decodeEntities (escapeAttr s) = s <-> hasChar dq_c s = false) /\
  hasChar dq_c (escapeAttr s) = false /\
  hasChar lt_c (escapeAttr s) = false /\
  hasChar gt_c (escapeAttr s) = false.
Proof.
  assert (H : decodeEntities (escapeAttr s) = replace_char dq_c "&quot;" s).
  { rewrite escapeAttr_replaceChars. clear.
    induction s as [|c s IH]; [reflexivity|].
    cbn [replaceChars replace_char]. rewrite escapeAttrChar_decode, IH.
    now rewrite Ascii.eqb_sym. }
  split; [exact H|]. split; [rewrite H; apply replace_dq_id|].
  rewrite escapeAttr_replaceChars.
  repeat split; apply hasChar_replaceChars; intros c; apply escapeAttrChar_safe;
    simpl; auto.
Qed.

(** [escapeAttr] of part_001 ([&] first) is undone by decoding and leaves
    no raw double quote, [<] or [>]. *)
Theorem escapeAttr_001_roundtrip (s : string) :
  decodeEntities (escapeAttr_001 s) = s /\
  hasChar dq_c (escapeAttr_001 s) = false /\
  hasChar lt_c (escapeAttr_001 s) = false /\
  hasChar gt_c (escapeAttr_001 s) = false.
Proof.
  rewrite escapeAttr_001_replaceChars.
  split; [apply decode_replaceChars, escapeAttrChar_001_decode|].
  repeat split; apply hasChar_replaceChars; intros c; apply escapeAttrChar_001_safe;
    simpl; auto.
Qed.

Lemma parseCommitLine_line h d s :
  hasChar bar h = false -> hasChar bar d = false ->
  parseCommitLine (String.append h (String bar (String.append d (String bar s)))) =
  mkCommit h (Some d) s.
Proof.
  intros Hh Hd. unfold parseCommitLine.
  rewrite split_on_app_sep by exact Hh. rewrite split_on_app_sep by exact Hd.
  now rewrite join_split_on.
Qed.

Lemma parse_log_lines (cs : list (string * string * string)) :
  Forall (fun '(h, d, s) =>
            hasChar bar h = false /\ hasChar bar d = false /\
            hasChar newline h = false /\ hasChar newline d = false /\
            hasChar newline s = false) cs ->
  Forall (fun x => hasChar newline x = false)
    (map (fun '(h, d, s) => String.append h (String bar (String.append d (String bar s)))) cs) /\
  map parseCommitLine
    (filter nonEmpty
       (map (fun '(h, d, s) => String.append h (String bar (String.append d (String bar s)))) cs)) =
  map (fun '(h, d, s) => mkCommit h (Some d) s) cs.
Proof.
  induction 1 as [|[[h d] s] cs (Hh & Hd & Nh & Nd & Ns) _ [IH1 IH2]];
    [split; [constructor | reflexivity]|].
  cbn [map filter]. split.
  - constructor; [|exact IH1].
    rewrite !hasChar_append_cons, Nh, Nd, Ns, bar_newline. reflexivity.
  - replace (nonEmpty (String.append h (String bar (String.append d (String bar s)))))
      with true by (destruct h; reflexivity).
    cbn [map]. rewrite parseCommitLine_line by assumption. now rewrite IH2.
Qed.

Lemma filter_nonEmpty_terminated names :
  Forall (fun f => f <> "") names -> filter nonEmpty (names ++ [""]) = names.
Proof.
  induction 1 as [|f names Hf _ IH]; [reflexivity|].
  cbn [app filter]. unfold nonEmpty at 1.
  apply String.eqb_neq in Hf. rewrite Hf. cbn [negb]. now rewrite IH.
Qed.

(* ------------------------------------------------------------------ *)
(** ** Properties of the git output parsing *)

(** [getFileCommits] parses what [git log --pretty=format:%H|%ad|%s]
    prints: when hashes and dates hold no [|] and no field holds a newline,
    the result is the [WORKING] entry followed by one entry per commit, in
    order, each with its hash, its date and its whole subject, [|]
    characters of the subject included. *)
Theorem getFileCommits_parses_log (cs : list (string * string * string))
  (Hcs : Forall (fun '(h, d, s) =>
            hasChar bar h = false /\ hasChar bar d = false /\
            hasChar newline h = false /\ hasChar newline d = false /\
            hasChar newline s = false) cs) :
  getFileCommits (Some (gitLogOutput cs)) =
    workingEntry :: map (fun '(h, d, s) => mkCommit h (Some d) s) cs.
Proof.
  unfold getFileCommits, gitLogOutput. f_equal.
  destruct (parse_log_lines cs Hcs) as [H1 H2].
  destruct cs as [|c cs]; [reflexivity|].
  rewrite split_join_on by (exact H1 || (cbn [map]; discriminate)).
  exact H2.
Qed.

Lemma getFileCommits_parses_log_witness :
  Forall (fun '(h, d, s) =>
            hasChar bar h = false /\ hasChar bar d = false /\
            hasChar newline h = false /\ hasChar newline d = false /\
            hasChar newline s = false)
    [("a1b2", "2024-05-01", "fix a|b"); ("c3d4", "2024-04-30", "init")] /\
  getFileCommits (Some (gitLogOutput
    [("a1b2", "2024-05-01", "fix a|b"); ("c3d4", "2024-04-30", "init")])) =
    workingEntry :: map (fun '(h, d, s) => mkCommit h (Some d) s)
      [("a1b2", "2024-05-01", "fix a|b"); ("c3d4", "2024-04-30", "init")].
Proof.
  assert (H : Forall (fun '(h, d, s) =>
            hasChar bar h = false /\ hasChar bar d = false /\
            hasChar newline h = false /\ hasChar newline d = false /\
            hasChar newline s = false)
    [("a1b2", "2024-05-01", "fix a|b"); ("c3d4", "2024-04-30", "init")])
    by (repeat constructor).
  split; [exact H|]. exact (getFileCommits_parses_log _ H).
Defined.

(** [getCommitFiles] parses what [git diff-tree --name-only] prints: for
    non-empty file names without newline, each printed on its own line, it
    returns exactly the names, in order; when the command fails it returns
    no name. *)
Theorem getCommitFiles_parses_names (names : list string)
  (Hn : Forall (fun f => f <> "" /\ hasChar newline f = false) names) :
  getCommitFiles (Some (gitNameListOutput names)) = names /\
  getCommitFiles None = [].
Proof.
  split; [|reflexivity].
  unfold getCommitFiles, gitNameListOutput.
  rewrite split_on_concat_terminated.
  - apply filter_nonEmpty_terminated. eapply Forall_impl; [|exact Hn]. now intros f [].
  - eapply Forall_impl; [|exact Hn]. now intros f [].
Qed.

Lemma getCommitFiles_parses_names_witness :
  Forall (fun f => f <> "" /\ hasChar newline f = false) ["README.md"; "src/extension.ts"] /\
  getCommitFiles (Some (gitNameListOutput ["README.md"; "src/extension.ts"])) =
    ["README.md"; "src/extension.ts"] /\
  getCommitFiles None = [].
Proof.
  assert (H : Forall (fun f => f <> "" /\ hasChar newline f = false)
                ["README.md"; "src/extension.ts"])
    by (repeat constructor; discriminate).
  split; [exact H|]. exact (getCommitFiles_parses_names _ H).
Defined.

(* ------------------------------------------------------------------ *)
(** ** Properties of the aligner and of the diff payload *)

(** The Mergeview has [|old| + |new| - LCS_length old new] records: at
    least as many as the longer side and at most as many as both sides
    together. *)
Theorem mergeLines_length (old new : list string) :
  exists v, mergeLines old new = Some v /\
    length v = length old + length new - LCS_length old new /\
    Nat.max (length old) (length new) <= length v <= length old + length new.
Proof.
  destruct (mergeLines_spec old new) as (v & Hv & Ho & Hn & Hs).
  exists v. split; [exact Hv|].
  pose proof (sides_count v) as C. pose proof (length_counts v) as L.
  pose proof (oldSide_le v) as O. pose proof (newSide_le v) as N.
  rewrite <- lcs_LCS_length, <- Hs. rewrite Ho, Hn in *. lia.
Qed.

(** Diffing a text against itself gives one [same] record per line, and
    the payload's text is the text itself with a [same] type per line. *)
Theorem buildMergedLines_identical (t : string) :
  buildMergedLines t t = Some (map (mkRec same) (splitLines t)) /\
  getFullFileDiffPayload (Some t) (Some t) =
    Some (mkPayload t (map (fun _ => "same") (splitLines t))).
Proof.
  assert (H : buildMergedLines t t = Some (map (mkRec same) (splitLines t))).
  { unfold buildMergedLines.
    destruct (mergeLines_spec (splitLines t) (splitLines t)) as (v & Hv & Ho & Hn & Hs).
    rewrite Hv. f_equal. rewrite <- Ho. apply all_same.
    pose proof (sides_count v) as C. rewrite Ho, Hn, Hs, lcs_refl in C. lia. }
  split; [exact H|].
  unfold getFullFileDiffPayload. cbn [contentOf]. rewrite H. f_equal. f_equal.
  - rewrite map_map. cbn [text]. rewrite map_id. apply join_splitLines.
  - now rewrite map_map.
Qed.

(** The payload sent to the webview: its types are the Mergeview's types in
    order and, for a non-empty Mergeview, splitting its text on newlines
    gives back the Mergeview's texts one per type; the Mergeview is empty
    exactly when both contents are empty or could not be read, and the
    payload is then the empty text with no type. *)
Theorem getFullFileDiffPayload_lines (oldOut newOut : option string) :
  exists merged p,
    buildMergedLines (contentOf oldOut) (contentOf newOut) = Some merged /\
    getFullFileDiffPayload oldOut newOut = Some p /\
    ptypes p = map (fun r => kindName (type r)) merged /\
    (merged <> [] -> split_nl (ptext p) = map text merged) /\
    (merged = [] <-> contentOf oldOut = "" /\ contentOf newOut = "") /\
    (merged = [] -> p = mkPayload "" []).
Proof.
  destruct (mergeLines_spec (splitLines (contentOf oldOut)) (splitLines (contentOf newOut)))
    as (v & Hv & Ho & Hn & _).
  assert (Hb : buildMergedLines (contentOf oldOut) (contentOf newOut) = Some v) by exact Hv.
  exists v, (mkPayload (join_nl (map text v)) (map (fun r => kindName (type r)) v)).
  split; [exact Hb|]. split; [unfold getFullFileDiffPayload; now rewrite Hb|].
  split; [reflexivity|]. split; [|split].
  - intros Hne. cbn [ptext]. apply split_join_nl.
    + apply Forall_map. exact (merged_texts_no_newline _ _ _ Hb).
    + now destruct v.
  - split.
    + intros ->. rewrite <- !splitLines_nil, <- Ho, <- Hn. split; reflexivity.
    + intros [E1 E2]. rewrite <- splitLines_nil in E1, E2.
      rewrite E1, E2 in Hv. unfold mergeLines in Hv. vm_compute in Hv.
      now injection Hv as <-.
  - intros ->. reflexivity.
Qed.

(** End to end: for the two fetched contents, whatever markup the
    highlighter puts around the payload's text (keeping that text), the
    rendered diff has one line per Mergeview record (one placeholder line
    when the Mergeview is empty), and the line of a [del] record gets the
    classes [line del], the line of an [add] record [line add] and the line
    of a [same] record [line]. *)
Theorem diffView_line_classes (oldOut newOut : option string)
  (merged : list LineRecord) (p : Payload) (highlighted : list node)
  (Hm : buildMergedLines (contentOf oldOut) (contentOf newOut) = Some merged)
  (Hp : getFullFileDiffPayload oldOut newOut = Some p)
  (Htext : String.concat "" (map textContent highlighted) = ptext p) :
  length (renderCombinedHighlighted highlighted (ptypes p)) = Nat.max 1 (length merged) /\
  forall i rec, nth_error merged i = Some rec ->
    exists r, nth_error (renderCombinedHighlighted highlighted (ptypes p)) i = Some r /\
      className r = match type rec with
                    | same => "line" | del => "line del" | add => "line add"
                    end.
Proof.
  unfold getFullFileDiffPayload in Hp. rewrite Hm in Hp. injection Hp as <-.
  cbn [ptext ptypes] in *.
  pose proof (merged_texts_no_newline _ _ _ Hm) as Hnl.
  assert (Hlen : length (renderCombinedHighlighted highlighted
                   (map (fun r => kindName (type r)) merged)) = Nat.max 1 (length merged)).
  { unfold renderCombinedHighlighted. rewrite renderLines_len.
    unfold splitHighlightedHtmlToLines. rewrite !length_map.
    pose proof (splitTokLines_len highlighted) as [H1 H2].
    rewrite Htext, count_nl_join, length_map in H2; [lia|].
    apply Forall_map. exact Hnl. }
  split; [exact Hlen|].
  intros i rec Hi.
  assert (Hlt : i < length merged) by (apply nth_error_Some; congruence).
  unfold renderCombinedHighlighted in *.
  eexists; split.
  - apply renderLines_nth. rewrite length_map.
    rewrite renderLines_len, length_map in Hlen. lia.
  - cbn [className]. unfold typeAt. rewrite nth_error_map, Hi. cbn [option_map].
    destruct (type rec); reflexivity.
Qed.

Lemma diffView_line_classes_witness :
  buildMergedLines (contentOf (Some "a")) (contentOf (Some "b")) =
    Some [mkRec del "a"; mkRec add "b"] /\
  getFullFileDiffPayload (Some "a") (Some "b") =
    Some (mkPayload (String.append "a" (String newline "b")) ["del"; "add"]) /\
  String.concat "" (map textContent [TextNode (String.append "a" (String newline "b"))]) =
    ptext (mkPayload (String.append "a" (String newline "b")) ["del"; "add"]) /\
  length (renderCombinedHighlighted [TextNode (String.append "a" (String newline "b"))]
            (ptypes (mkPayload (String.append "a" (String newline "b")) ["del"; "add"]))) =
    Nat.max 1 (length [mkRec del "a"; mkRec add "b"]).
Proof.
  assert (H1 : buildMergedLines (contentOf (Some "a")) (contentOf (Some "b")) =
                 Some [mkRec del "a"; mkRec add "b"]) by (vm_compute; reflexivity).
  assert (H2 : getFullFileDiffPayload (Some "a") (Some "b") =
    Some (mkPayload (String.append "a" (String newline "b")) ["del"; "add"]))
    by (vm_compute; reflexivity).
  assert (H3 : String.concat "" (map textContent
                 [TextNode (String.append "a" (String newline "b"))]) =
    ptext (mkPayload (String.append "a" (String newline "b")) ["del"; "add"]))
    by reflexivity.
  split; [exact H1|]. split; [exact H2|]. split; [exact H3|].
  exact (proj1 (diffView_line_classes _ _ _ _ _ H1 H2 H3)).
Defined.

(* ------------------------------------------------------------------ *)
(** ** Properties of the repository-root search *)

(** [findGitRepoRoot] of extension.ts returns the nearest directory among
    [dirname(filePath)] and its ancestors that holds [.git], but never the
    root: it returns [null] when no directory strictly below the root holds
    [.git]. *)
Theorem findGitRepoRoot_nearest (hasGit : list string -> bool) (filePath : list string) :
  let D := dirname filePath in
  match findGitRepoRoot hasGit filePath with
  | Some d => d <> [] /\ hasGit d = true /\
              exists j, 1 <= j <= length D /\ d = firstn j D /\
                forall j', j < j' <= length D -> hasGit (firstn j' D) = false
  | None => forall j, 1 <= j <= length D -> hasGit (firstn j D) = false
  end.
Proof.
  intros D. unfold findGitRepoRoot. fold D.
  pose proof (findRootLoop_spec hasGit D (length D) (S (length D))) as H.
  rewrite firstn_all in H. specialize (H (le_n _) (Nat.lt_succ_diag_r _)).
  destruct (findRootLoop hasGit (S (length D)) D) as [d|]; [|exact H].
  destruct H as (j & Hj & Hd & Hg & Hn).
  split; [|split; [exact Hg | exists j; auto]].
  intros E. subst d. apply (f_equal (@length string)) in E.
  rewrite length_firstn in E. cbn in E. lia.
Qed.

(** [findGitRepoRoot] of part_001 returns the nearest directory among
    [dirname(filePath)] and its ancestors that holds [.git], the root
    included, and [null] only when none of them does. *)
Theorem findGitRepoRoot_001_nearest (hasGit : list string -> bool)
  (filePath : list string) :
  let D := dirname filePath in
  match findGitRepoRoot_001 hasGit filePath with
  | Some d => hasGit d = true /\
              exists j, j <= length D /\ d = firstn j D /\
                forall j', j < j' <= length D -> hasGit (firstn j' D) = false
  | None => forall j, j <= length D -> hasGit (firstn j D) = false
  end.
Proof.
  intros D. unfold findGitRepoRoot_001. fold D.
  pose proof (findRootLoop_001_spec hasGit D (length D) (S (length D))) as H.
  rewrite firstn_all in H. specialize (H (le_n _) (Nat.lt_succ_diag_r _)).
  destruct (findRootLoop_001 hasGit (S (length D)) D) as [d|]; [|exact H].
  destruct H as (j & Hj & Hd & Hg & Hn). split; [exact Hg | exists j; auto].
Qed.

(* ------------------------------------------------------------------ *)
(** ** Property of the part_001 split *)

(** part_001's split keeps the text line by line: the text of line [i] of
    [nodeToLines] of a node is line [i] of the node's text content, and the
    lines of the whole highlighted output carry the lines of its text, the
    last one dropped when it is empty (the text ends with a newline). *)
Theorem splitTokLines_001_line_texts (nd : node) (highlighted : list node) :
  map line_text (nodeToLines nd) = split_nl (textContent nd) /\
  let T := String.concat "" (map textContent highlighted) in
  (map line_text (splitTokLines_001 highlighted) = split_nl T \/
   map line_text (splitTokLines_001 highlighted) ++ [""] = split_nl T).
Proof.
  split; [apply nodeToLines_texts|]. intros T.
  assert (H : map line_text (fold_left (fun acc nd => appendLines acc (nodeToLines nd))
                                       highlighted [[]]) = split_nl T).
  { rewrite fold_nodeToLines, fold_map_line_text, map_map.
    rewrite (map_ext _ (fun x => split_nl (textContent x))) by apply nodeToLines_texts.
    rewrite <- map_map. exact (fold_appendTexts_split _ ""). }
  unfold splitTokLines_001. rewrite <- H. apply map_line_text_trimLast.
Qed.

(* ------------------------------------------------------------------ *)
(** ** Line texts of the extension.ts split *)

Lemma map_set_nth {A B} (f : A -> B) i x l :
  map f (set_nth i x l) = set_nth i (f x) (map f l).
Proof.
  revert i; induction l as [|y l IH]; intros [|i]; cbn [set_nth map]; auto.
  now rewrite IH.
Qed.

Lemma set_nth_nth_same {A} i (l : list A) d : set_nth i (nth i l d) l = l.
Proof.
  revert i; induction l as [|y l IH]; intros [|i]; cbn [set_nth nth]; auto.
  now rewrite IH.
Qed.

Lemma set_nth_last {A} (l : list A) x :
  l <> [] -> set_nth (length l - 1) x l = removelast l ++ [x].
Proof.
  induction l as [|y l IH]; intros H; [congruence|].
  destruct l as [|z l]; [reflexivity|].
  replace (length (y :: z :: l) - 1) with (S (length (z :: l) - 1)) by (simpl; lia).
  cbn [set_nth]. rewrite IH by discriminate. reflexivity.
Qed.

Lemma nth_last_index {A} (l : list A) d : nth (length l - 1) l d = last l d.
Proof.
  induction l as [|y l IH]; [reflexivity|].
  destruct l as [|z l]; [reflexivity|].
  replace (length (y :: z :: l) - 1) with (S (length (z :: l) - 1)) by (simpl; lia).
  transitivity (nth (length (z :: l) - 1) (z :: l) d); [reflexivity|].
  rewrite IH. reflexivity.
Qed.

Lemma appendToLine_in idx t lines :
  idx < length lines ->
  appendToLine idx t lines = set_nth idx (nth idx lines [] ++ [t]) lines.
Proof.
  intros H. unfold appendToLine.
  replace (S idx - length lines) with 0 by lia. now rewrite app_nil_r.
Qed.

(** A piece without text leaves the line texts as they are. *)
Lemma appendToLine_no_text idx t lines :
  idx < length lines -> line_text [t] = "" ->
  map line_text (appendToLine idx t lines) = map line_text lines.
Proof.
  intros H Ht. rewrite appendToLine_in by exact H.
  rewrite map_set_nth, line_text_app, Ht, string_append_nil_r.
  rewrite <- (map_nth line_text lines [] idx). unfold line_text at 2. cbn.
  apply set_nth_nth_same.
Qed.

Lemma appendToLine_last_text e lines :
  lines <> [] ->
  map line_text (appendToLine (length lines - 1) (TText e) lines) =
  appendTexts (map line_text lines) [e].
Proof.
  intros H. assert (Hl : length lines - 1 < length lines)
    by (destruct lines; [congruence | simpl; lia]).
  rewrite appendToLine_in by exact Hl.
  rewrite map_set_nth, line_text_app.
  replace (length lines) with (length (map line_text lines)) by apply length_map.
  rewrite set_nth_last by (destruct lines; [congruence | discriminate]).
  cbn [appendTexts]. rewrite app_nil_r. f_equal. f_equal.
  replace (line_text [TText e]) with e
    by (unfold line_text; cbn; now rewrite ?string_append_nil_r).
  f_equal. rewrite length_map, nth_last_index. exact (map_last line_text lines []).
Qed.

Lemma appendToLine_past idx t lines :
  idx = length lines -> appendToLine idx t lines = appendToLine idx t (lines ++ [[]]).
Proof.
  intros ->. unfold appendToLine. rewrite length_app. cbn [length].
  replace (S (length lines) - length lines) with 1 by lia.
  replace (S (length lines) - (length lines + 1)) with 0 by lia.
  now rewrite app_nil_r.
Qed.

Lemma closeTags_texts tag idx k lines :
  idx + k <= length lines ->
  map line_text (closeTags tag idx k lines) = map line_text lines.
Proof.
  revert idx lines; induction k as [|k IH]; intros idx lines H; [reflexivity|].
  cbn [closeTags]. rewrite IH by (rewrite length_appendToLine; lia).
  apply appendToLine_no_text; [lia | reflexivity].
Qed.

Lemma appendTexts_single_empty L : L <> [] -> appendTexts [""] L = L.
Proof. destruct L; [congruence | reflexivity]. Qed.

Lemma appendTexts_snoc_empty X f r :
  appendTexts (X ++ [""]) (f :: r) = X ++ f :: r.
Proof.
  cbn [appendTexts]. rewrite removelast_last, last_last. reflexivity.
Qed.

Lemma appendTexts_snoc A e f r :
  A <> [] -> appendTexts A (e :: f :: r) = appendTexts A [e] ++ f :: r.
Proof. intros _. cbn [appendTexts]. now rewrite <- !app_assoc. Qed.

(** The text-node branch: the pieces go to the last line and to new lines
    below it, the cursor ends on the last line. *)
Lemma textParts_texts p ps lines :
  lines <> [] ->
  map line_text (fst (textParts (p :: ps) lines (length lines - 1))) =
    appendTexts (map line_text lines) (map escapeHtmlTextNode (p :: ps)) /\
  snd (textParts (p :: ps) lines (length lines - 1)) =
    length (fst (textParts (p :: ps) lines (length lines - 1))) - 1.
Proof.
  revert p lines; induction ps as [|q ps IH]; intros p lines H.
  - cbn [textParts fst snd map]. split; [now apply appendToLine_last_text|].
    rewrite length_appendToLine. destruct lines; [congruence | simpl; lia].
  - set (L1 := appendToLine (length lines - 1) (TText (escapeHtmlTextNode p)) lines).
    assert (HL1 : length L1 = length lines)
      by (unfold L1; rewrite length_appendToLine; destruct lines; [congruence|simpl; lia]).
    change (textParts (p :: q :: ps) lines (length lines - 1))
      with (textParts (q :: ps) L1 (S (length lines - 1))).
    assert (E : S (length lines - 1) = length (L1 ++ [[]]) - 1)
      by (rewrite length_app, HL1; simpl; destruct lines; [congruence|simpl; lia]).
    assert (Hp : textParts (q :: ps) L1 (S (length lines - 1)) =
                 textParts (q :: ps) (L1 ++ [[]]) (length (L1 ++ [[]]) - 1)).
    { rewrite <- E. destruct ps; cbn [textParts];
        rewrite <- appendToLine_past by (rewrite HL1; destruct lines; [congruence|simpl; lia]);
        reflexivity. }
    rewrite Hp.
    destruct (IH q (L1 ++ [[]])) as [I1 I2]; [destruct L1; discriminate|].
    split; [|exact I2].
    rewrite I1, map_app. cbn [map].
    replace (line_text []) with "" by reflexivity.
    cbn [map]. rewrite appendTexts_snoc_empty.
    rewrite appendTexts_snoc by (rewrite <- length_zero_iff_nil, length_map;
                                 destruct lines; [congruence|simpl; lia]).
    unfold L1. rewrite appendToLine_last_text by exact H. reflexivity.
Qed.

Lemma replaceChars_app f s t :
  replaceChars f (String.append s t) = String.append (replaceChars f s) (replaceChars f t).
Proof.
  induction s as [|c s IH]; [reflexivity|].
  cbn [String.append replaceChars]. now rewrite IH, string_append_assoc.
Qed.

Lemma escapeHtmlTextNode_app s t :
  escapeHtmlTextNode (String.append s t) =
  String.append (escapeHtmlTextNode s) (escapeHtmlTextNode t).
Proof. rewrite !escapeHtmlTextNode_replaceChars. apply replaceChars_app. Qed.

Lemma escapeTextChar_no_newline c :
  Ascii.eqb c newline = false -> count_nl (escapeTextChar c) = 0.
Proof.
  intros H. unfold escapeTextChar. char_cases. cbn [count_nl]. now rewrite H.
Qed.

(** Escaping a text node keeps its newlines and adds none. *)
Lemma split_nl_escape v :
  split_nl (escapeHtmlTextNode v) = map escapeHtmlTextNode (split_nl v).
Proof.
  rewrite escapeHtmlTextNode_replaceChars.
  rewrite (map_ext escapeHtmlTextNode (replaceChars escapeTextChar))
    by exact escapeHtmlTextNode_replaceChars.
  induction v as [|c v IH]; [reflexivity|].
  cbn [replaceChars split_nl].
  destruct (Ascii.eqb c newline) eqn:E.
  - apply Ascii.eqb_eq in E. subst c. cbn [map].
    replace (escapeTextChar newline) with (String newline "") by reflexivity.
    cbn [String.append split_nl]. rewrite Ascii.eqb_refl, IH. reflexivity.
  - rewrite split_nl_app, split_nl_no_newline by (now apply escapeTextChar_no_newline).
    rewrite IH.
    destruct (split_nl v) as [|p ps] eqn:Hv;
      [exfalso; rewrite split_nl_split_on in Hv; now apply split_on_not_nil in Hv|].
    reflexivity.
Qed.

Lemma walk_texts nd :
  forall lines acc li,
  lines <> [] -> li = length lines - 1 -> map line_text lines = split_nl acc ->
  map line_text (fst (walk nd lines li)) =
    split_nl (String.append acc (escapeHtmlTextNode (textContent nd))) /\
  snd (walk nd lines li) = length (fst (walk nd lines li)) - 1 /\
  length lines <= length (fst (walk nd lines li)).
Proof.
  revert nd; fix IH 1; intros [v|tn attrs cs|] lines acc li Hne Hli HS.
  - cbn [walk textContent].
    destruct (split_nl v) as [|p ps] eqn:Hv;
      [exfalso; rewrite split_nl_split_on in Hv; now apply split_on_not_nil in Hv|].
    subst li. destruct (textParts_texts p ps lines Hne) as [T1 T2].
    split; [|split; [exact T2|]].
    + rewrite T1, HS, <- Hv, <- split_nl_escape. apply eq_sym, split_nl_app.
    + destruct (textParts_len (p :: ps) lines (length lines - 1)) as [_ L];
        [discriminate|]. rewrite L. lia.
  - assert (HC : forall cs lines acc li,
              lines <> [] -> li = length lines - 1 -> map line_text lines = split_nl acc ->
              map line_text (fst (walkChildren walk cs lines li)) =
                split_nl (String.append acc
                  (escapeHtmlTextNode (String.concat "" (map textContent cs)))) /\
              snd (walkChildren walk cs lines li) =
                length (fst (walkChildren walk cs lines li)) - 1 /\
              length lines <= length (fst (walkChildren walk cs lines li))).
    { clear tn attrs cs lines acc li Hne Hli HS.
      induction cs as [|c cs IHc]; intros lines acc li Hne Hli HS.
      - cbn [walkChildren map String.concat escapeHtmlTextNode fst snd].
        rewrite string_append_nil_r. auto.
      - cbn [walkChildren map].
        destruct (IH c lines acc li Hne Hli HS) as (W1 & W2 & W3).
        destruct (walk c lines li) as [l' i'] eqn:Ew. cbn [fst snd] in W1, W2, W3.
        destruct (IHc l' (String.append acc (escapeHtmlTextNode (textContent c))) i')
          as (C1 & C2 & C3);
          [destruct l'; [cbn in W3; destruct lines; [congruence|cbn in W3; lia]|discriminate]
          | exact W2 | exact W1 |].
        split; [|split; [exact C2 | lia]].
        rewrite C1, string_concat_cons, escapeHtmlTextNode_app, string_append_assoc.
        reflexivity. }
    cbn [walk textContent].
    set (open_ := TOpen (toLowerCase tn) _).
    set (lines1 := appendToLine li open_ lines).
    assert (Hlt : li < length lines) by (destruct lines; [congruence|cbn in *; lia]).
    assert (L1 : length lines1 = length lines)
      by (unfold lines1; rewrite length_appendToLine; lia).
    assert (T1 : map line_text lines1 = split_nl acc)
      by (unfold lines1; rewrite appendToLine_no_text; [exact HS | exact Hlt | reflexivity]).
    destruct (HC cs lines1 acc li) as (C1 & C2 & C3);
      [destruct lines1; [cbn in L1; destruct lines; [congruence|discriminate]|discriminate]
      | lia | exact T1 |].
    destruct (walkChildren walk cs lines1 li) as [lines2 li2] eqn:Ec.
    cbn [fst snd] in C1, C2, C3 |- *.
    assert (Hcl : li + Datatypes.S (li2 - li) <= length lines2) by lia.
    rewrite closeTags_texts, closeTags_len by exact Hcl.
    split; [exact C1|]. split; [exact C2|]. lia.
  - cbn [walk textContent escapeHtmlTextNode fst snd].
    rewrite string_append_nil_r. subst li. auto.
Qed.

(** X15: when the highlighted HTML has a single top-level node, the line
    buffers that [splitHighlightedHtmlToLines] of extension.ts builds hold,
    line by line, the escaped text of that node split at its newlines; the
    only difference is the empty last line that the trimming drops. *)
Theorem splitHighlightedHtmlToLines_single_root_texts nd :
  map line_text (splitTokLines [nd]) =
    split_nl (escapeHtmlTextNode (textContent nd)) \/
  map line_text (splitTokLines [nd]) ++ [""] =
    split_nl (escapeHtmlTextNode (textContent nd)).
Proof.
  unfold splitTokLines. cbn [fold_left].
  destruct (walk_texts nd [[]] "" 0) as (W & _ & _);
    [discriminate | reflexivity | reflexivity |].
  cbn [String.append] in W. rewrite <- W.
  apply map_line_text_trimLast.
Qed.

(* ------------------------------------------------------------------ *)
(** ** Properties of the git output parsing of the panels *)

Lemma filter_nonEmpty_all l :
  Forall (fun x => x <> "") l -> filter nonEmpty l = l.
Proof.
  induction 1 as [|x l Hx _ IH]; [reflexivity|].
  cbn [filter]. unfold nonEmpty at 1.
  apply String.eqb_neq in Hx. rewrite Hx. cbn [negb]. now rewrite IH.
Qed.

Lemma tab_newline : Ascii.eqb tab newline = false.
Proof. reflexivity. Qed.

Lemma panelParseLine_line rp rf h d s :
  hasChar tab h = false -> hasChar tab d = false ->
  panelParseLine rp rf (String.append h (String tab (String.append d (String tab s)))) =
  mkPanelCommit h (Some d) s rf rp "".
Proof.
  intros Hh Hd. unfold panelParseLine.
  rewrite split_on_app_sep by exact Hh. rewrite split_on_app_sep by exact Hd.
  now rewrite join_split_on.
Qed.

Lemma tab_lines_ok (cs : list (string * string * string)) :
  Forall (fun '(h, d, s) =>
            hasChar newline h = false /\ hasChar newline d = false /\
            hasChar newline s = false) cs ->
  Forall (fun x => x <> "" /\ hasChar newline x = false)
    (map (fun '(h, d, s) => String.append h (String tab (String.append d (String tab s)))) cs).
Proof.
  induction 1 as [|[[h d] s] cs (Nh & Nd & Ns) _ IH]; [constructor|].
  cbn [map]. constructor; [|exact IH]. split.
  - destruct h; discriminate.
  - rewrite !hasChar_append_cons, Nh, Nd, Ns, tab_newline. reflexivity.
Qed.

Lemma split_join_lines l :
  Forall (fun x => x <> "" /\ hasChar newline x = false) l ->
  filter nonEmpty (split_on newline (join_on newline l)) = l.
Proof.
  intros H. destruct l as [|x l]; [reflexivity|].
  rewrite split_join_on.
  - apply filter_nonEmpty_all. eapply Forall_impl; [|exact H]. now intros y [].
  - eapply Forall_impl; [|exact H]. now intros y [].
  - discriminate.
Qed.

(** X16: the file history panel parses what
    [git log --pretty=format:%H%x09%ad%x09%s] prints: when hashes and dates
    hold no tab and no field holds a newline, every commit comes back with
    its hash, date and whole subject (tabs in the subject included), the
    panel's [relFile] and [repoPath] and an empty [special]. *)
Theorem panelGetFileCommits_parses_log (repoPath relFile : string)
  (cs : list (string * string * string))
  (Hcs : Forall (fun '(h, d, s) =>
            hasChar tab h = false /\ hasChar tab d = false /\
            hasChar newline h = false /\ hasChar newline d = false /\
            hasChar newline s = false) cs) :
  panelGetFileCommits repoPath relFile (gitLogTabOutput cs) =
    map (fun '(h, d, s) => mkPanelCommit h (Some d) s relFile repoPath "") cs.
Proof.
  unfold panelGetFileCommits, gitLogTabOutput.
  rewrite split_join_lines.
  - clear -Hcs. induction Hcs as [|[[h d] s] cs (Hh & Hd & _) _ IH]; [reflexivity|].
    cbn [map]. rewrite panelParseLine_line by assumption. now rewrite IH.
  - apply tab_lines_ok. eapply Forall_impl; [|exact Hcs].
    intros [[h d] s]. tauto.
Qed.

Lemma panelGetFileCommits_parses_log_witness :
  Forall (fun '(h, d, s) =>
            hasChar tab h = false /\ hasChar tab d = false /\
            hasChar newline h = false /\ hasChar newline d = false /\
            hasChar newline s = false)
    [("a1b2", "2024-05-01", String.append "fix" (String tab "tabs")); ("c3d4", "2024-04-30", "init")] /\
  panelGetFileCommits "/repo" "src/a.ts" (gitLogTabOutput
    [("a1b2", "2024-05-01", String.append "fix" (String tab "tabs")); ("c3d4", "2024-04-30", "init")]) =
    map (fun '(h, d, s) => mkPanelCommit h (Some d) s "src/a.ts" "/repo" "")
      [("a1b2", "2024-05-01", String.append "fix" (String tab "tabs")); ("c3d4", "2024-04-30", "init")].
Proof.
  assert (H : Forall (fun '(h, d, s) =>
            hasChar tab h = false /\ hasChar tab d = false /\
            hasChar newline h = false /\ hasChar newline d = false /\
            hasChar newline s = false)
    [("a1b2", "2024-05-01", String.append "fix" (String tab "tabs")); ("c3d4", "2024-04-30", "init")])
    by (repeat constructor).
  split; [exact H|]. exact (panelGetFileCommits_parses_log "/repo" "src/a.ts" _ H).
Defined.

(** X17: [findPreviousCommit] returns the second hash that
    [git log --pretty=format:%H] prints, and [null] when it prints fewer than
    two: for non-empty hashes without newline it is the element at index 1. *)
Theorem findPreviousCommit_second (hs : list string)
  (Hhs : Forall (fun h => h <> "" /\ hasChar newline h = false) hs) :
  findPreviousCommit (join_on newline hs) = nth_error hs 1.
Proof.
  unfold findPreviousCommit. rewrite split_join_lines by exact Hhs.
  destruct hs as [|a [|b r]]; reflexivity.
Qed.

Lemma findPreviousCommit_second_witness :
  Forall (fun h => h <> "" /\ hasChar newline h = false) ["c3d4"; "a1b2"] /\
  findPreviousCommit (join_on newline ["c3d4"; "a1b2"]) = Some "a1b2".
Proof.
  assert (H : Forall (fun h => h <> "" /\ hasChar newline h = false) ["c3d4"; "a1b2"])
    by (repeat constructor; discriminate).
  split; [exact H|]. exact (findPreviousCommit_second _ H).
Defined.

Lemma parseNameStatusLine_line st f :
  hasChar tab st = false ->
  parseNameStatusLine (String.append st (String tab f)) = (st, f).
Proof.
  intros H. unfold parseNameStatusLine.
  rewrite split_on_app_sep by exact H. now rewrite join_split_on.
Qed.

(** X18: the commit files panel parses the lines of
    [git show --pretty=format: --name-status]: when each entry is printed as
    its status, a tab and its file on a line ended by a newline, with or
    without a blank line before them, and statuses hold no tab and no field a
    newline, every entry comes back as its status and its file, in order (a
    file part with tabs, as the two paths of a rename, kept whole). *)
Theorem parseNameStatus_entries (es : list (string * string))
  (Hes : Forall (fun '(st, f) =>
            hasChar tab st = false /\ hasChar newline st = false /\
            hasChar newline f = false) es) :
  let out := gitNameListOutput (map (fun '(st, f) => String.append st (String tab f)) es) in
  parseNameStatus out = es /\ parseNameStatus (String newline out) = es.
Proof.
  assert (L : Forall (fun x => x <> "" /\ hasChar newline x = false)
                (map (fun '(st, f) => String.append st (String tab f)) es)).
  { clear -Hes. induction Hes as [|[st f] es (_ & Ns & Nf) _ IH]; [constructor|].
    cbn [map]. constructor; [|exact IH]. split.
    - destruct st; discriminate.
    - rewrite hasChar_append_cons, Ns, Nf, tab_newline. reflexivity. }
  assert (P : map parseNameStatusLine
                (map (fun '(st, f) => String.append st (String tab f)) es) = es).
  { clear -Hes. induction Hes as [|[st f] es (Ht & _) _ IH]; [reflexivity|].
    cbn [map]. rewrite parseNameStatusLine_line by exact Ht. now rewrite IH. }
  assert (F : filter nonEmpty (split_on newline
                (gitNameListOutput (map (fun '(st, f) => String.append st (String tab f)) es))) =
              map (fun '(st, f) => String.append st (String tab f)) es).
  { unfold gitNameListOutput. rewrite split_on_concat_terminated.
    - apply filter_nonEmpty_terminated. eapply Forall_impl; [|exact L]. now intros y [].
    - eapply Forall_impl; [|exact L]. now intros y []. }
  cbv zeta. unfold parseNameStatus. split.
  - now rewrite F.
  - cbn [split_on]. rewrite Ascii.eqb_refl. cbn [filter nonEmpty String.eqb negb].
    now rewrite F.
Qed.

Lemma parseNameStatus_entries_witness :
  Forall (fun '(st, f) =>
            hasChar tab st = false /\ hasChar newline st = false /\
            hasChar newline f = false)
    [("M", "README.md"); ("R100", String.append "old.ts" (String tab "new.ts"))] /\
  (let out := gitNameListOutput (map (fun '(st, f) => String.append st (String tab f))
                [("M", "README.md"); ("R100", String.append "old.ts" (String tab "new.ts"))]) in
   parseNameStatus out = [("M", "README.md"); ("R100", String.append "old.ts" (String tab "new.ts"))] /\
   parseNameStatus (String newline out) =
     [("M", "README.md"); ("R100", String.append "old.ts" (String tab "new.ts"))]).
Proof.
  assert (H : Forall (fun '(st, f) =>
            hasChar tab st = false /\ hasChar newline st = false /\
            hasChar newline f = false)
    [("M", "README.md"); ("R100", String.append "old.ts" (String tab "new.ts"))])
    by (repeat constructor).
  split; [exact H|]. exact (parseNameStatus_entries _ H).
Defined.

(* ------------------------------------------------------------------ *)
(** ** Properties of [getHighlightJsLanguageClass] *)

Lemma las_app a b :
  list_ascii_of_string (String.append a b) = list_ascii_of_string a ++ list_ascii_of_string b.
Proof. induction a as [|c a IH]; [reflexivity|]. cbn. now rewrite IH. Qed.

Lemma string_length_append a b :
  String.length (String.append a b) = String.length a + String.length b.
Proof. induction a as [|c a IH]; [reflexivity|]. cbn. now rewrite IH. Qed.

Lemma length_las s : length (list_ascii_of_string s) = String.length s.
Proof. induction s as [|c s IH]; [reflexivity|]. cbn. now rewrite IH. Qed.

Lemma hasChar_las c s :
  hasChar c s = false -> Forall (fun d => Ascii.eqb d c = false) (list_ascii_of_string s).
Proof.
  induction s as [|d s IH]; intros H; [constructor|].
  cbn [hasChar] in H. apply orb_false_iff in H as [H1 H2].
  constructor; [exact H1 | exact (IH H2)].
Qed.

Lemma substring_app_length a c n :
  substring (String.length a) n (String.append a c) = substring 0 n c.
Proof. induction a as [|d a IH]; [reflexivity|]. exact IH. Qed.

Lemma substring_whole c : substring 0 (String.length c) c = c.
Proof. induction c as [|d c IH]; [reflexivity|]. cbn. now rewrite IH. Qed.

(** Characters that are neither a slash nor a dot leave the loop unchanged
    once [end] is set and before any dot is seen. *)
Lemma extLoop_plain ys rest sp e ms pds :
  Forall (fun c => Ascii.eqb c slash_c = false /\ Ascii.eqb c dot_c = false) ys ->
  e <> (-1)%Z ->
  extLoop (ys ++ rest) (-1) sp e ms pds = extLoop rest (-1) sp e ms pds.
Proof.
  intros H He. induction H as [|y ys [Hs Hd] _ IH]; [reflexivity|].
  cbn [app extLoop]. rewrite Hs, Hd.
  replace (Z.eqb e (-1)) with false by (symmetry; apply Z.eqb_neq; exact He).
  exact IH.
Qed.

(** The last component's extension part: [end] is set at the last
    character and [startDot] at the dot. *)
Lemma extLoop_ext x rest :
  Forall (fun c => Ascii.eqb c slash_c = false /\ Ascii.eqb c dot_c = false) x ->
  extLoop (rev x ++ dot_c :: rest) (-1) 0 (-1) true 0 =
  extLoop rest (Z.of_nat (length rest)) 0 (Z.of_nat (length rest + 1 + length x)) false 0.
Proof.
  intros Hx. apply Forall_rev in Hx. rewrite <- (length_rev x).
  destruct (rev x) as [|y ys]; cbn [app length].
  - cbn [extLoop]. replace (length rest + 1 + 0) with (length rest + 1) by lia.
    rewrite Nat2Z.inj_add. reflexivity.
  - inversion Hx as [|? ? [Hs Hd] Hys]; subst.
    cbn [extLoop]. rewrite ?Hs, ?Hd, ?Z.eqb_refl. cbn [negb].
    rewrite extLoop_plain by (exact Hys || (rewrite length_app; cbn; lia)).
    cbn [extLoop]. replace (Ascii.eqb dot_c slash_c) with false by reflexivity.
    rewrite Ascii.eqb_refl, Z.eqb_refl.
    replace (Z.eqb (Z.of_nat (length (ys ++ dot_c :: rest)) + 1) (-1)) with false
      by (symmetry; apply Z.eqb_neq; lia).
    f_equal. rewrite length_app. cbn [length]. lia.
Qed.

(** The rest of the last component, after the dot: only [preDotState]
    changes, to [1] or [-1] (to [-1] for a single character that is not a
    dot). *)
Lemma extLoop_base bs rest sd sp e pds :
  Forall (fun c => Ascii.eqb c slash_c = false) bs ->
  sd <> (-1)%Z -> e <> (-1)%Z ->
  exists p', extLoop (bs ++ rest) sd sp e false pds = extLoop rest sd sp e false p' /\
    (bs = [] -> p' = pds) /\ (bs <> [] -> p' = 1%Z \/ p' = (-1)%Z) /\
    (forall c, bs = [c] -> Ascii.eqb c dot_c = false -> p' = (-1)%Z).
Proof.
  intros H Hsd He. revert pds.
  induction H as [|c bs Hc _ IH]; intros pds.
  - exists pds. repeat split; [congruence | discriminate].
  - assert (Hp : exists p1, extLoop ((c :: bs) ++ rest) sd sp e false pds =
                           extLoop (bs ++ rest) sd sp e false p1 /\
                           (p1 = 1%Z \/ p1 = (-1)%Z) /\
                           (Ascii.eqb c dot_c = false -> p1 = (-1)%Z)).
    { cbn [app extLoop]. rewrite Hc.
      replace (Z.eqb e (-1)) with false by (symmetry; apply Z.eqb_neq; exact He).
      replace (Z.eqb sd (-1)) with false by (symmetry; apply Z.eqb_neq; exact Hsd).
      cbn [negb]. destruct (Ascii.eqb c dot_c).
      - destruct (Z.eqb pds 1) eqn:E; cbn [negb].
        + apply Z.eqb_eq in E. subst. exists 1%Z. repeat split; auto; discriminate.
        + exists 1%Z. repeat split; auto; discriminate.
      - exists (-1)%Z. repeat split; auto. }
    destruct Hp as (p1 & E1 & R1 & N1).
    destruct (IH p1) as (p' & E2 & B2 & R2 & S2).
    exists p'. rewrite E1, E2. repeat split.
    + discriminate.
    + intros _. destruct bs; [rewrite B2 by reflexivity; exact R1 | apply R2; discriminate].
    + intros c' Hcs Hd. injection Hcs as -> ->. rewrite B2 by reflexivity. exact (N1 Hd).
Qed.

(** The directory part: a slash after the last component stops the loop
    ([startPart] is the length of the directory part); without a directory
    the loop ends with [startPart = 0]. *)
Lemma extLoop_dir pre sd e p :
  (pre = "" \/ exists d, pre = String.append d "/") ->
  exists sp, extLoop (rev (list_ascii_of_string pre)) sd 0 e false p = (sd, sp, e, p) /\
    sp = Z.of_nat (String.length pre).
Proof.
  intros [-> | [d ->]].
  - exists 0%Z. split; reflexivity.
  - exists (Z.of_nat (String.length d + 1)). split.
    + rewrite las_app, rev_app_distr. cbn [list_ascii_of_string rev app extLoop].
      rewrite length_rev, length_las.
      replace (Ascii.eqb "/" slash_c) with true by reflexivity. cbn [negb].
      rewrite Nat2Z.inj_add. reflexivity.
    + rewrite string_length_append. reflexivity.
Qed.

Lemma lower_dot x : toLowerCase (String dot_c x) = String dot_c (toLowerCase x).
Proof. reflexivity. Qed.

(** X19: [getHighlightJsLanguageClass] goes by the last extension of the
    file name, in any letter case: for a path made of a directory part
    (empty or ending with a slash), a base name (neither empty nor a lone
    dot) and a last extension without dot, the class is the table entry of
    the lower-cased extension ([''] when it has none). A name that starts
    with its only dot (a dot file) and a name without a dot get [''].
    Paths follow the POSIX rules of Node's [path.extname]. *)
Theorem getHighlightJsLanguageClass_last_extension (pre b x : string)
  (Hpre : pre = "" \/ exists d, pre = String.append d "/")
  (Hb : b <> "" /\ b <> "." /\ hasChar slash_c b = false)
  (Hx : hasChar slash_c x = false /\ hasChar dot_c x = false) :
  getHighlightJsLanguageClass (String.append pre (String.append b (String dot_c x))) =
    langClass (String dot_c (toLowerCase x)) /\
  getHighlightJsLanguageClass (String.append pre (String dot_c x)) = "" /\
  (x <> "" -> getHighlightJsLanguageClass (String.append pre x) = "").
Proof.
  destruct Hb as (Hb0 & Hb1 & Hbs). destruct Hx as (Hxs & Hxd).
  assert (Fx : Forall (fun c => Ascii.eqb c slash_c = false /\ Ascii.eqb c dot_c = false)
                 (list_ascii_of_string x)).
  { pose proof (hasChar_las _ _ Hxs) as A. pose proof (hasChar_las _ _ Hxd) as B.
    clear -A B. induction A as [|c l Ac _ IH]; [constructor|].
    inversion B; subst. constructor; auto. }
  unfold getHighlightJsLanguageClass, extname. split; [|split].
  - rewrite !las_app. cbn [list_ascii_of_string].
    rewrite !rev_app_distr. cbn [rev]. rewrite <- !app_assoc. cbn [app].
    rewrite extLoop_ext by exact Fx.
    destruct (extLoop_base (rev (list_ascii_of_string b)) (rev (list_ascii_of_string pre))
                (Z.of_nat (length (rev (list_ascii_of_string b) ++ rev (list_ascii_of_string pre))))
                0
                (Z.of_nat (length (rev (list_ascii_of_string b) ++ rev (list_ascii_of_string pre))
                           + 1 + length (list_ascii_of_string x)))
                0)
      as (p' & E & _ & R & S1);
      [apply Forall_rev, hasChar_las, Hbs | lia | lia |].
    rewrite E.
    destruct (extLoop_dir pre
                (Z.of_nat (length (rev (list_ascii_of_string b) ++ rev (list_ascii_of_string pre))))
                (Z.of_nat (length (rev (list_ascii_of_string b) ++ rev (list_ascii_of_string pre))
                           + 1 + length (list_ascii_of_string x))) p' Hpre) as (sp & D & Hsp).
    rewrite D. rewrite length_app, !length_rev, !length_las in *.
    assert (Rb : rev (list_ascii_of_string b) <> []).
    { intros Hr. apply Hb0. destruct b; [reflexivity|].
      cbn in Hr. destruct (rev (list_ascii_of_string b)); discriminate. }
    specialize (R Rb).
    replace (Z.eqb _ (-1)) with false by (symmetry; apply Z.eqb_neq; lia).
    replace (Z.eqb (Z.of_nat (String.length b + String.length pre + 1 + String.length x)) (-1))
      with false by (symmetry; apply Z.eqb_neq; lia).
    replace (Z.eqb p' 0) with false by (symmetry; apply Z.eqb_neq; lia).
    replace ((Z.eqb p' 1 &&
              Z.eqb (Z.of_nat (String.length b + String.length pre))
                (Z.of_nat (String.length b + String.length pre + 1 + String.length x) - 1) &&
              Z.eqb (Z.of_nat (String.length b + String.length pre)) (sp + 1))%bool)
      with false.
    + cbn [orb]. f_equal.
      replace (Z.to_nat (Z.of_nat (String.length b + String.length pre)))
        with (String.length (String.append pre b)) by (rewrite string_length_append; lia).
      replace (Z.to_nat (Z.of_nat (String.length b + String.length pre + 1 + String.length x)
                          - Z.of_nat (String.length b + String.length pre)))
        with (String.length (String dot_c x)) by (cbn [String.length]; lia).
      rewrite <- string_append_assoc, substring_app_length, substring_whole.
      apply lower_dot.
    + symmetry. destruct (Z.eqb p' 1) eqn:P1; [|reflexivity]. apply Z.eqb_eq in P1.
      destruct (Z.eqb (Z.of_nat (String.length b + String.length pre))
                  (Z.of_nat (String.length b + String.length pre + 1 + String.length x) - 1))
        eqn:P2; [|reflexivity].
      destruct (Z.eqb (Z.of_nat (String.length b + String.length pre)) (sp + 1)) eqn:P3;
        [|reflexivity].
      exfalso. apply Z.eqb_eq in P2, P3. subst sp.
      destruct b as [|c [|c' b]]; [congruence| |cbn in P3; lia].
      destruct (Ascii.eqb c dot_c) eqn:Hc.
      * apply Ascii.eqb_eq in Hc. subst c. apply Hb1. reflexivity.
      * rewrite (S1 c) in P1 by (reflexivity || exact Hc). discriminate.
  - rewrite las_app. cbn [list_ascii_of_string].
    rewrite rev_app_distr. cbn [rev]. rewrite <- app_assoc. cbn [app].
    rewrite extLoop_ext by exact Fx.
    destruct (extLoop_dir pre (Z.of_nat (length (rev (list_ascii_of_string pre))))
                (Z.of_nat (length (rev (list_ascii_of_string pre)) + 1
                           + length (list_ascii_of_string x))) 0 Hpre) as (sp & D & _).
    rewrite D. replace (Z.eqb 0 0) with true by reflexivity.
    rewrite !orb_true_r. reflexivity.
  - intros Hx0. rewrite las_app, rev_app_distr.
    destruct (rev (list_ascii_of_string x)) as [|y ys] eqn:Ex.
    + exfalso. apply Hx0. destruct x; [reflexivity|].
      cbn in Ex. destruct (rev (list_ascii_of_string x)); discriminate.
    + apply Forall_rev in Fx. rewrite Ex in Fx.
      inversion Fx as [|? ? [Hs Hd] Hys]; subst.
      cbn [app extLoop]. rewrite Hs, Hd, !Z.eqb_refl. cbn [negb].
      rewrite extLoop_plain by (exact Hys || lia).
      destruct (extLoop_dir pre (-1)
                  (Z.of_nat (length (ys ++ rev (list_ascii_of_string pre))) + 1) 0 Hpre)
        as (sp & D & _).
      rewrite D. reflexivity.
Qed.

Lemma getHighlightJsLanguageClass_last_extension_witness :
  ((String.append "src" "/" = "" \/ exists d, String.append "src" "/" = String.append d "/") /\
   ("Main" <> "" /\ "Main" <> "." /\ hasChar slash_c "Main" = false) /\
   (hasChar slash_c "TS" = false /\ hasChar dot_c "TS" = false)) /\
  getHighlightJsLanguageClass (String.append (String.append "src" "/")
    (String.append "Main" (String dot_c "TS"))) = langClass (String dot_c (toLowerCase "TS")) /\
  getHighlightJsLanguageClass (String.append (String.append "src" "/") (String dot_c "TS")) = "" /\
  ("TS" <> "" -> getHighlightJsLanguageClass (String.append (String.append "src" "/") "TS") = "").
Proof.
  assert (H1 : String.append "src" "/" = "" \/
               exists d, String.append "src" "/" = String.append d "/")
    by (right; exists "src"; reflexivity).
  assert (H2 : "Main" <> "" /\ "Main" <> "." /\ hasChar slash_c "Main" = false)
    by (split; [discriminate | split; [discriminate | reflexivity]]).
  assert (H3 : hasChar slash_c "TS" = false /\ hasChar dot_c "TS" = false)
    by (split; reflexivity).
  split; [exact (conj H1 (conj H2 H3))|].
  exact (getHighlightJsLanguageClass_last_extension _ _ _ H1 H2 H3).
Defined.

(* ------------------------------------------------------------------ *)
(** ** The renderer's line count *)

Lemma string_append_empty_inv a b :
  String.append a b = "" -> a = "" /\ b = "".
Proof. destruct a; [now split | discriminate]. Qed.

(** Walking nodes without text, each from line [0], keeps a single line
    without text. *)
Lemma fold_walk_no_text nodes lines :
  String.concat "" (map textContent nodes) = "" ->
  map line_text lines = [""] ->
  map line_text (fold_left (fun ls nd => fst (walk nd ls 0)) nodes lines) = [""].
Proof.
  revert lines. induction nodes as [|nd nodes IH]; intros lines Hc Hl; [exact Hl|].
  cbn [map fold_left] in *. rewrite string_concat_cons in Hc.
  apply string_append_empty_inv in Hc as [Hn Hc].
  apply IH; [exact Hc|].
  assert (Hne : lines <> []) by (intros ->; discriminate).
  assert (Hlen : length lines = 1)
    by (rewrite <- (length_map line_text), Hl; reflexivity).
  destruct (walk_texts nd lines "" 0 Hne ltac:(lia) Hl) as (W & _ & _).
  rewrite W, Hn. reflexivity.
Qed.

(** Walking text nodes without text, each from line [0], keeps a single
    line without markup. *)
Lemma fold_walk_text_only nodes l :
  Forall (fun nd => exists v, nd = TextNode v) nodes ->
  String.concat "" (map textContent nodes) = "" ->
  line_html l = "" ->
  exists l', fold_left (fun ls nd => fst (walk nd ls 0)) nodes [l] = [l'] /\
    line_html l' = "".
Proof.
  intros H. revert l. induction H as [|nd nodes [v ->] _ IH]; intros l Hc Hl.
  - exists l. split; [reflexivity | exact Hl].
  - cbn [map fold_left] in *. rewrite string_concat_cons in Hc.
    apply string_append_empty_inv in Hc as [Hv Hc]. cbn [textContent] in Hv. subst v.
    apply IH; [exact Hc|].
    unfold line_html. cbn [walk split_nl textParts appendToLine fst].
    cbn [length app repeat Nat.sub nth set_nth].
    rewrite map_app, string_concat_app. unfold line_html in Hl. rewrite Hl.
    reflexivity.
Qed.

(** C5: the renderer returns [max(H, |Mergeview|)] lines, [H] being the
    number of split highlight lines, for every markup tree, and never fails
    (it is a total function). When the tree's text is the newline-joined
    Mergeview texts, as the highlighter produces it (Mergeview texts hold
    no newline), whatever the nesting of its elements: a non-empty
    Mergeview gets exactly one line per entry; an empty Mergeview gets the
    single padding line of the split highlight, of class [line] and holding
    no text, which is the [&nbsp;] placeholder when the tree has no element
    (plain text only). *)
Theorem renderCombinedHighlighted_line_count (merged : list LineRecord)
  (highlighted : list node)
  (Hlines : Forall (fun r => count_nl (text r) = 0) merged)
  (Htext : String.concat "" (map textContent highlighted) =
           join_nl (map text merged)) :
  length (renderCombinedHighlighted highlighted
            (map (fun r => kindName (type r)) merged)) =
    Nat.max (length (splitHighlightedHtmlToLines highlighted)) (length merged) /\
  (merged <> [] ->
   length (renderCombinedHighlighted highlighted
             (map (fun r => kindName (type r)) merged)) = length merged) /\
  (merged = [] ->
   exists l, splitTokLines highlighted = [l] /\ line_text l = "" /\
     renderCombinedHighlighted highlighted (map (fun r => kindName (type r)) merged) =
       [mkRendered "line" (if String.eqb (line_html l) "" then "&nbsp;" else line_html l)]) /\
  (merged = [] -> Forall (fun nd => exists v, nd = TextNode v) highlighted ->
   renderCombinedHighlighted highlighted (map (fun r => kindName (type r)) merged) =
     [mkRendered "line" "&nbsp;"]).
Proof.
  assert (Hlen : length (renderCombinedHighlighted highlighted
                   (map (fun r => kindName (type r)) merged)) =
                 Nat.max (length (splitHighlightedHtmlToLines highlighted)) (length merged)).
  { unfold renderCombinedHighlighted. now rewrite renderLines_len, length_map. }
  assert (Hsingle : merged = [] ->
            exists l, splitTokLines highlighted = [l] /\ line_text l = "").
  { intros ->. cbn [map join_nl] in Htext.
    pose proof (fold_walk_no_text highlighted [[]] Htext eq_refl) as F.
    destruct (fold_left (fun ls nd => fst (walk nd ls 0)) highlighted [[]])
      as [|l [|l2 ls]] eqn:E; try discriminate.
    exists l. split.
    - unfold splitTokLines. rewrite E. reflexivity.
    - now injection F. }
  split; [exact Hlen|]. split; [|split].
  - intros Hne. rewrite Hlen. unfold splitHighlightedHtmlToLines. rewrite length_map.
    pose proof (splitTokLines_len highlighted) as [_ H2].
    rewrite Htext, count_nl_join, length_map in H2 by (apply Forall_map; exact Hlines).
    destruct merged; [congruence|]. cbn [length] in *. lia.
  - intros Hm. destruct (Hsingle Hm) as (l & Hl & Ht). subst merged.
    exists l. split; [exact Hl|]. split; [exact Ht|].
    unfold renderCombinedHighlighted, splitHighlightedHtmlToLines. rewrite Hl.
    reflexivity.
  - intros Hm Honly. destruct (Hsingle Hm) as (l & Hl & _). subst merged.
    cbn [map join_nl] in Htext.
    destruct (fold_walk_text_only highlighted [] Honly Htext eq_refl) as (l' & E & Hh).
    unfold renderCombinedHighlighted, splitHighlightedHtmlToLines, splitTokLines.
    rewrite E. cbn [trimLast length Nat.ltb andb map]. unfold trimLast. cbn [length].
    replace (Nat.ltb 1 1) with false by reflexivity. cbn [andb map].
    rewrite Hh. reflexivity.
Qed.

Lemma renderCombinedHighlighted_line_count_witness :
  (Forall (fun r => count_nl (text r) = 0) [mkRec same "a"; mkRec add "b"] /\
  String.concat ""
    (map textContent
       [ElementNode "SPAN" [("class", "hljs-keyword")] [TextNode "a"];
        TextNode (String newline "b")]) =
    join_nl (map text [mkRec same "a"; mkRec add "b"]) /\
  (length (renderCombinedHighlighted
            [ElementNode "SPAN" [("class", "hljs-keyword")] [TextNode "a"];
             TextNode (String newline "b")]
            (map (fun r => kindName (type r)) [mkRec same "a"; mkRec add "b"])) =
    Nat.max (length (splitHighlightedHtmlToLines
              [ElementNode "SPAN" [("class", "hljs-keyword")] [TextNode "a"];
               TextNode (String newline "b")]))
      (length [mkRec same "a"; mkRec add "b"]) /\
  ([mkRec same "a"; mkRec add "b"] <> [] ->
   length (renderCombinedHighlighted
             [ElementNode "SPAN" [("class", "hljs-keyword")] [TextNode "a"];
              TextNode (String newline "b")]
             (map (fun r => kindName (type r)) [mkRec same "a"; mkRec add "b"])) =
   length [mkRec same "a"; mkRec add "b"]) /\
  ([mkRec same "a"; mkRec add "b"] = [] ->
   exists l, splitTokLines
               [ElementNode "SPAN" [("class", "hljs-keyword")] [TextNode "a"];
                TextNode (String newline "b")] = [l] /\ line_text l = "" /\
     renderCombinedHighlighted
       [ElementNode "SPAN" [("class", "hljs-keyword")] [TextNode "a"];
        TextNode (String newline "b")]
       (map (fun r => kindName (type r)) [mkRec same "a"; mkRec add "b"]) =
       [mkRendered "line" (if String.eqb (line_html l) "" then "&nbsp;" else line_html l)]) /\
  ([mkRec same "a"; mkRec add "b"] = [] ->
   Forall (fun nd => exists v, nd = TextNode v)
     [ElementNode "SPAN" [("class", "hljs-keyword")] [TextNode "a"];
      TextNode (String newline "b")] ->
   renderCombinedHighlighted
     [ElementNode "SPAN" [("class", "hljs-keyword")] [TextNode "a"];
      TextNode (String newline "b")]
     (map (fun r => kindName (type r)) [mkRec same "a"; mkRec add "b"]) =
     [mkRendered "line" "&nbsp;"]))) /\
  (Forall (fun r => count_nl (text r) = 0) ([] : list LineRecord) /\
  String.concat "" (map textContent [TextNode ""]) = join_nl (map text []) /\
  renderCombinedHighlighted [TextNode ""] (map (fun r => kindName (type r)) []) =
    [mkRendered "line" "&nbsp;"]).
Proof.
  split.
  - assert (H1 : Forall (fun r => count_nl (text r) = 0)
                   [mkRec same "a"; mkRec add "b"])
      by (repeat constructor).
    assert (H2 : String.concat ""
      (map textContent
         [ElementNode "SPAN" [("class", "hljs-keyword")] [TextNode "a"];
          TextNode (String newline "b")]) =
      join_nl (map text [mkRec same "a"; mkRec add "b"])) by reflexivity.
    split; [exact H1|]. split; [exact H2|].
    exact (renderCombinedHighlighted_line_count _ _ H1 H2).
  - assert (H1 : Forall (fun r => count_nl (text r) = 0) ([] : list LineRecord))
      by constructor.
    assert (H2 : String.concat "" (map textContent [TextNode ""]) = join_nl (map text []))
      by reflexivity.
    split; [exact H1|]. split; [exact H2|].
    apply (proj2 (proj2 (proj2
             (renderCombinedHighlighted_line_count [] [TextNode ""] H1 H2))));
      [reflexivity | repeat constructor; eexists; reflexivity].
Defined.
